(** * The MLflow dashboard plugin: panel, availability prober, shared URL cell
    and the [set_iframe_url] operator

    A shallow embedding of [src/State.ts], [src/Operator.ts] and
    [src/MLFlow.tsx].  JavaScript values that reach the code from outside
    (operator parameters, the remote result, the value carried by a change
    event) are kept as untyped values; React state is threaded explicitly
    and the effects a handler or a [useEffect] performs are returned as a
    list next to the new state. *)

From stdpp Require Import base option list strings pretty.
From Stdlib Require Import ZArith.

Local Open Scope string_scope.
Local Open Scope list_scope.
Set Warnings "-register-all".

(** ** JavaScript values *)

Module Js.

(** The JSON-shaped values the panel and the operator receive.  Numbers are
    restricted to the integers; only the key of an option looks inside one. *)
Inductive Value : Type :=
| Undefined
| Null
| Bool (b : bool)
| Num (n : Z)
| Str (s : string)
| Arr (items : list Value)
| Obj (fields : list (string * Value)).

(** Own-property lookup in an object literal: the first binding of a key is
    the one the object holds. *)
Fixpoint lookup_field (k : string) (fields : list (string * Value)) : option Value :=
  match fields with
  | [] => None
  | (k', v) :: rest => if String.eqb k k' then Some v else lookup_field k rest
  end.

(** [v.k] for a value that is neither [undefined] nor [null], for the names
    the source reads ([url], [name], [urls]); none of them is a built-in
    property of a primitive or of an array, so the read yields [undefined]
    there. *)
Definition prop (v : Value) (k : string) : Value :=
  match v with
  | Obj fields => default Undefined (lookup_field k fields)
  | _ => Undefined
  end.

Definition nullish (v : Value) : bool :=
  match v with
  | Undefined | Null => true
  | _ => false
  end.

(** [v.k]: a [TypeError] ([None]) on [undefined] and [null]. *)
Definition get (v : Value) (k : string) : option Value :=
  if nullish v then None else Some (prop v k).

(** [v?.k] *)
Definition get_opt (v : Value) (k : string) : Value :=
  if nullish v then Undefined else prop v k.

(** [ToBoolean] *)
Definition truthy (v : Value) : bool :=
  match v with
  | Undefined | Null => false
  | Bool b => b
  | Num n => negb (n =? 0)%Z
  | Str s => negb (String.eqb s "")
  | Arr _ | Obj _ => true
  end.

(** [a || b] *)
Definition or (a b : Value) : Value := if truthy a then a else b.

(** [String(v)]: the decimal digits for a number (an integer a JavaScript
    number holds exactly), the elements joined by commas for an array, with
    [undefined] and [null] elements contributing the empty string, and
    ["[object Object]"] for a plain object. *)
Fixpoint to_string (v : Value) : string :=
  match v with
  | Undefined => "undefined"
  | Null => "null"
  | Bool b => if b then "true" else "false"
  | Num n => pretty n
  | Str s => s
  | Arr items =>
      (fix join (l : list Value) : string :=
         match l with
         | [] => ""
         | x :: rest =>
             let sx := if nullish x then "" else to_string x in
             match rest with
             | [] => sx
             | _ :: _ => sx +:+ "," +:+ join rest
             end
         end) items
  | Obj _ => "[object Object]"
  end.

(** The key React gives an element created with [key={v}]: none for
    [undefined], the string ['' + v] otherwise. *)
Definition to_key (v : Value) : Value :=
  match v with
  | Undefined => Undefined
  | _ => Str (to_string v)
  end.

(** [Array.isArray(v)] *)
Definition isArray (v : Value) : bool :=
  match v with
  | Arr _ => true
  | _ => false
  end.

End Js.

(** ** src/State.ts *)

Module State.

(** [atom({ key: "iframeURLAtom", default: "http://127.0.0.1:5000" })]:
    the value the Recoil store holds for the atom before any write. *)
Definition iframeURLAtom_default : Js.Value := Js.Str "http://127.0.0.1:5000".

End State.

(** ** src/Operator.ts *)

Module Operator.

Definition name : string := "set_iframe_url".

(** [hooks.setIframeUrl(params.url)], the setter being the one
    [useSetRecoilState(iframeURLAtom)] returns: the atom's new value, or
    [None] when reading [params.url] throws and nothing is written. *)
Definition execute (params : Js.Value) : option Js.Value :=
  Js.get params "url".

End Operator.

(** ** src/MLFlow.tsx *)

Module MLFlow.

(** *** React elements *)

Inductive Tag : Type :=
| Box | Stack | CircularProgress | Typography | Select | MenuItem
| Iframe | TextField | Button
| URLInputFormC.  (* the component [URLInputForm], wrapping what it renders *)

#[global] Instance Tag_eq_dec : EqDecision Tag.
Proof. solve_decision. Defined.

(** The element tree a component function returns.  Only the props that carry
    data or identity are kept; [sx], [style], [size], [variant], [spacing] and
    the alignment props are presentational and left out.  A conditional child
    [c && <X/>] is the list [[X]] or the empty list. *)
Inductive VNode : Type :=
| Elem (tag : Tag) (props : list (string * Js.Value)) (children : list VNode)
| Text (content : Js.Value).

(** Props and children of every element with tag [t], in document order. *)
Fixpoint elements (t : Tag) (v : VNode) : list (list (string * Js.Value) * list VNode) :=
  match v with
  | Elem t' props cs =>
      (if decide (t = t') then [(props, cs)] else []) ++ flat_map (elements t) cs
  | Text _ => []
  end.

Definition children_of (v : VNode) : list VNode :=
  match v with
  | Elem _ _ cs => cs
  | Text _ => []
  end.

(** Every text child of the tree, in document order. *)
Fixpoint texts (v : VNode) : list Js.Value :=
  match v with
  | Elem _ _ cs => flat_map texts cs
  | Text c => [c]
  end.

Definition attr (k : string) (e : list (string * Js.Value) * list VNode) : Js.Value :=
  default Js.Undefined (Js.lookup_field k e.1).

(** *** The operator executor handle

    [useOperatorExecutor] belongs to the host framework; the panel reads two
    fields of the handle it returns. *)
Record Executor : Type := mkExecutor {
  isExecuting : bool;
  result : Js.Value;
}.

(** *** State of a mounted panel *)

Record Panel : Type := mkPanel {
  getExperimentURLs : Executor;      (* handle seen by the current render *)
  experimentURLValue : Js.Value;     (* useState("") *)
  serverAvailable : bool;            (* useServerAvailability: useState(true) *)
  url : string;                      (* useServerAvailability: useState(defaultUrl) *)
  inputUrl : option string;          (* URLInputForm: useState(""), while mounted *)
}.

Definition defaultUrl : string := "http://127.0.0.1:5000".

Definition operator_uri : string :=
  "@jacobmarks/mlflow_tracking/get_mlflow_experiment_urls".

Definition set_executor (e : Executor) (p : Panel) : Panel :=
  mkPanel e (experimentURLValue p) (serverAvailable p) (url p) (inputUrl p).

Definition setExperimentURLValue (v : Js.Value) (p : Panel) : Panel :=
  mkPanel (getExperimentURLs p) v (serverAvailable p) (url p) (inputUrl p).

Definition setServerAvailable (b : bool) (p : Panel) : Panel :=
  mkPanel (getExperimentURLs p) (experimentURLValue p) b (url p) (inputUrl p).

Definition setUrl (u : string) (p : Panel) : Panel :=
  mkPanel (getExperimentURLs p) (experimentURLValue p) (serverAvailable p) u (inputUrl p).

Definition setInputUrl (s : option string) (p : Panel) : Panel :=
  mkPanel (getExperimentURLs p) (experimentURLValue p) (serverAvailable p) (url p) s.

(** *** Rendering *)

(** [getExperimentURLs?.result?.urls]; the handle itself is an object. *)
Definition experimentURLs (p : Panel) : Js.Value :=
  Js.get_opt (result (getExperimentURLs p)) "urls".

(** [getExperimentURLs?.isExecuting] *)
Definition loadingExperimentURLs (p : Panel) : bool :=
  isExecuting (getExperimentURLs p).

(** [loadingExperimentURLs || Array.isArray(experimentURLs) === false] *)
Definition loading (p : Panel) : bool :=
  loadingExperimentURLs p || negb (Js.isArray (experimentURLs p)).

Definition URLInputForm (inputUrl : string) : VNode :=
  Elem URLInputFormC []
    [Elem Box [("component", Js.Str "form")]
       [Elem TextField [("label", Js.Str "MLFlow Server URL");
                        ("value", Js.Str inputUrl)] [];
        Elem Button [("type", Js.Str "submit")] [Text (Js.Str "Update URL")]]].

(** [<MenuItem key={item.url} value={item.url}>{item.name}</MenuItem>];
    reading a property of [undefined] or [null] throws; the element carries
    the key as a string and the value as it is. *)
Definition menu_item (item : Js.Value) : option VNode :=
  u ← Js.get item "url";
  n ← Js.get item "name";
  Some (Elem MenuItem [("key", Js.to_key u); ("value", u)] [Text n]).

Definition select_row (value : Js.Value) (options : list VNode) : VNode :=
  Elem Stack [("direction", Js.Str "row")]
    [Elem Typography [] [Text (Js.Str "Select an experiment on this dataset:")];
     Elem Select [("labelId", Js.Str "experiment-select-label");
                  ("id", Js.Str "experiment-select");
                  ("value", value)] options].

(** [experimentURLs.map((item) => <MenuItem .../>)] inside the [Select]. *)
Definition selector (value : Js.Value) (items : list Js.Value) : option VNode :=
  options ← mapM menu_item items;
  Some (select_row value options).

Definition loading_indicator : VNode :=
  Elem Box [] [Elem CircularProgress [] []].

Definition iframe (src : Js.Value) : VNode :=
  Elem Box []
    [Elem Iframe [("src", src); ("title", Js.Str "MLFlow Embedded");
                  ("allowFullScreen", Js.Bool true)] []].

(** The tree of the second [return], given what the selector slot holds. *)
Definition page (p : Panel) (items : list Js.Value) (sel : list VNode) : VNode :=
  Elem Stack []
    ((if serverAvailable p then []
      else [URLInputForm (default "" (inputUrl p))])
     ++ (if bool_decide (length items = 0)
         then [Elem Box [] [Text (Js.Str "No experiments found")]]
         else [])
     ++ sel
     ++ [iframe (Js.or (experimentURLValue p) (Js.Str defaultUrl))]).

(** The component function: the tree it returns, or [None] when it throws. *)
Definition MLFlowPanel (p : Panel) : option VNode :=
  if loading p then Some loading_indicator
  else
    match experimentURLs p with
    | Js.Arr items =>
        sel ← (if bool_decide (1 < length items)
               then s ← selector (experimentURLValue p) items; Some [s]
               else Some []);
        Some (page p items sel)
    | _ => None  (* [.length] of a non-array; not reached past the guard *)
    end.

(** The slot of the selector: empty up to one item, one row of options
    beyond. *)
Definition selector_slot (p : Panel) (items : list Js.Value) (sel : list VNode) : Prop :=
  if bool_decide (1 < length items)
  then ∃ opts, mapM menu_item items = Some opts ∧
               sel = [select_row (experimentURLValue p) opts]
  else sel = [].

(** An option as [menu_item] builds it. *)
Definition menu_shaped (o : VNode) : Prop :=
  ∃ k u n, o = Elem MenuItem [("key", k); ("value", u)] [Text n].

(** The option of a well-formed descriptor. *)
Definition option_node (d : string * string) : VNode :=
  Elem MenuItem [("key", Js.Str d.2); ("value", Js.Str d.2)] [Text (Js.Str d.1)].

(** *** Handlers and effects *)

Inductive Effect : Type :=
| Fetch (u : string)          (* fetch(u, { mode: "no-cors" }) *)
| Execute (uri : string)      (* getExperimentURLs.execute() *)
| ConsoleLog (v : Js.Value)
| PreventDefault.

Definition fetches (effs : list Effect) : list string :=
  omap (λ e, match e with Fetch u => Some u | _ => None end) effs.

(** The effect of [useServerAvailability], with dependency list [[url]]: it
    runs after the first render ([prev = None]) and after every render whose
    [url] differs from the one of the render before. *)
Definition probe_effect (prev : option string) (cur : string) : list Effect :=
  if decide (prev = Some cur) then [] else [Fetch cur].

Definition handleExperimentURLChange (value : Js.Value) (p : Panel) : Panel * list Effect :=
  (setExperimentURLValue value p, [ConsoleLog value]).

Definition handleUpdateUrl (newUrl : string) (p : Panel) : Panel * list Effect :=
  (setUrl newUrl p, []).

(** [handleSubmit] of [URLInputForm], whose [onSubmit] prop is
    [handleUpdateUrl]. *)
Definition handleSubmit (p : Panel) : Panel * list Effect :=
  let '(p', effs) := handleUpdateUrl (default "" (inputUrl p)) p in
  (p', PreventDefault :: effs).

(** State at the first render, given the handle the executor hook returns. *)
Definition initial (e : Executor) : Panel :=
  mkPanel e (Js.Str "") true defaultUrl None.

(** Effects after the first render, in the order the hooks are called. *)
Definition mount_effects (p : Panel) : list Effect :=
  probe_effect None (url p) ++ [Execute operator_uri].

(** *** What the rendered tree offers *)

Definition rendered (t : Tag) (p : Panel) : list (list (string * Js.Value) * list VNode) :=
  from_option (elements t) [] (MLFlowPanel p).

Definition form_rendered (p : Panel) : bool :=
  bool_decide (rendered URLInputFormC p ≠ []).

(** The [value] props of the options, in order. *)
Definition select_options (p : Panel) : list Js.Value :=
  attr "value" <$> rendered MenuItem p.

(** The label (children) of each option, in order. *)
Definition select_labels (p : Panel) : list (list VNode) :=
  snd <$> rendered MenuItem p.

Definition iframe_src (p : Panel) : list Js.Value :=
  attr "src" <$> rendered Iframe p.

Definition rendered_texts (p : Panel) : list Js.Value :=
  from_option texts [] (MLFlowPanel p).

(** React keeps the state of [URLInputForm] while the element stays in the
    tree and discards it when the element leaves; a fresh instance starts
    from [useState("")]. *)
Definition commit (p : Panel) : Panel :=
  setInputUrl (if form_rendered p then Some (default "" (inputUrl p)) else None) p.


(** The empty-state message of the second tree. *)
Definition empty_state : list (string * Js.Value) * list VNode :=
  ([], [Text (Js.Str "No experiments found")]).

Definition executes (effs : list Effect) : list string :=
  omap (λ e, match e with Execute uri => Some uri | _ => None end) effs.

Definition logged (effs : list Effect) : list Js.Value :=
  omap (λ e, match e with ConsoleLog v => Some v | _ => None end) effs.

End MLFlow.

(** ** The earlier revision of the panel kept in the repository

    Same prober and form; no experiment selector; the iframe shows [url]. *)

Module LegacyPanel.

Import MLFlow.

Record Panel : Type := mkPanel {
  serverAvailable : bool;
  url : string;
  inputUrl : option string;
}.

Definition defaultUrl : string := "http://127.0.0.1:8080".

Definition handleUpdateUrl (newUrl : string) (p : Panel) : Panel :=
  mkPanel (serverAvailable p) newUrl (inputUrl p).

Definition MLFlowPanel (p : Panel) : VNode :=
  Elem Box []
    ((if serverAvailable p then [] else [URLInputForm (default "" (inputUrl p))])
     ++ [Elem Iframe [("src", Js.Str (url p)); ("title", Js.Str "MLFlow Embedded");
                      ("allowFullScreen", Js.Bool true)] []]).

Definition iframe_src (p : Panel) : list Js.Value :=
  attr "src" <$> elements Iframe (MLFlowPanel p).

End LegacyPanel.

(** ** The application: Recoil store, one panel slot, probes in flight *)

Module App.

Import MLFlow.

Record App : Type := mkApp {
  iframeURLAtom : Js.Value;     (* value of the atom in the Recoil store *)
  panel : option Panel;         (* the mounted panel, if any *)
  inflight : list string;       (* probes of the mounted panel not yet settled *)
}.

Definition init : App := mkApp State.iframeURLAtom_default None [].

Inductive Event : Type :=
| Mount (e : Executor)            (* the host opens the panel *)
| Unmount                         (* the host closes it *)
| ExecutorUpdate (e : Executor)   (* the executor hook returns a new handle *)
| ProbeSettled (u : string) (ok : bool)  (* the fetch of [u] resolves or rejects *)
| SelectChange (k : nat)          (* the user picks the k-th option *)
| FormInput (s : string)          (* the user edits the text field *)
| FormSubmit                      (* the user submits the form *)
| SetIframeURL (params : Js.Value).  (* someone runs the [set_iframe_url] operator *)

Fixpoint remove_first (u : string) (l : list string) : list string :=
  match l with
  | [] => []
  | x :: rest => if decide (u = x) then rest else x :: remove_first u rest
  end.

(** A state update of the mounted panel [prev]: the handler has produced
    [next] and its own effects; React renders [next], and when that does not
    throw commits it and runs the prober's effect.  A render that throws takes
    the panel down, and the callbacks of its probes with it. *)
Definition update (a : App) (prev : Panel) (pending : list string)
    (r : Panel * list Effect) : App * list Effect :=
  let '(next, effs) := r in
  match MLFlowPanel next with
  | Some _ =>
      let effs' := effs ++ probe_effect (Some (url prev)) (url next) in
      (mkApp (iframeURLAtom a) (Some (commit next)) (pending ++ fetches effs'), effs')
  | None => (mkApp (iframeURLAtom a) None [], effs)
  end.

(** The handler an event on the mounted panel [p] runs: the probes that stay
    pending and the handler's result; [None] when the event cannot occur in
    this state (no such element in the rendered tree, no such probe in
    flight). *)
Definition handle (a : App) (p : Panel) (ev : Event) :
    option (list string * (Panel * list Effect)) :=
  match ev with
  | ExecutorUpdate e => Some (inflight a, (set_executor e p, []))
  | ProbeSettled u ok =>
      if decide (u ∈ inflight a)
      then Some (remove_first u (inflight a), (setServerAvailable ok p, []))
      else None
  | SelectChange k =>
      v ← select_options p !! k;
      Some (inflight a, handleExperimentURLChange v p)
  | FormInput s =>
      if form_rendered p then Some (inflight a, (setInputUrl (Some s) p, [])) else None
  | FormSubmit =>
      if form_rendered p then Some (inflight a, handleSubmit p) else None
  | Mount _ | Unmount | SetIframeURL _ => None
  end.

(** One event; [None] when it cannot occur in this state.  The operator can
    be run at any time; the panel can be opened when it is closed and closed
    when it is open; everything else is an event on the mounted panel. *)
Definition step (a : App) (ev : Event) : option (App * list Effect) :=
  match ev, panel a with
  | SetIframeURL params, _ =>
      Some (mkApp (default (iframeURLAtom a) (Operator.execute params))
                  (panel a) (inflight a), [])
  | Mount e, None =>
      let p := initial e in
      match MLFlowPanel p with
      | Some _ =>
          let effs := mount_effects p in
          Some (mkApp (iframeURLAtom a) (Some (commit p)) (fetches effs), effs)
      | None => Some (a, [])
      end
  | Mount _, Some _ => None
  | Unmount, Some _ => Some (mkApp (iframeURLAtom a) None [], [])
  | _, Some p => '(pending, r) ← handle a p ev; Some (update a p pending r)
  | _, None => None
  end.

Fixpoint run (a : App) (evs : list Event) : option (App * list Effect) :=
  match evs with
  | [] => Some (a, [])
  | ev :: rest =>
      '(a', effs) ← step a ev;
      '(a'', effs') ← run a' rest;
      Some (a'', effs ++ effs')
  end.

Definition is_rejection (ev : Event) : bool :=
  match ev with
  | ProbeSettled _ false => true
  | _ => false
  end.

(** Some probe has rejected in the course of [evs]. *)
Definition rejected (evs : list Event) : bool := existsb is_rejection evs.

(** Invariants of the runs below. *)
Definition renders (a : App) : Prop :=
  ∀ p, panel a = Some p → is_Some (MLFlowPanel p).

Definition calm (a : App) : Prop :=
  ∀ p, panel a = Some p → serverAvailable p = true.

Definition tracks (a : App) (log : list Effect) : Prop :=
  ∀ p, panel a = Some p → last (fetches log) = Some (url p).

Definition reachable (a : App) : Prop :=
  ∃ evs log, run init evs = Some (a, log).

(** What the application shows in the panel slot. *)
Definition view (a : App) : option (option VNode) :=
  MLFlowPanel <$> panel a.

(** An [ExperimentURLDescriptor]: an item whose [name] and [url] are the
    strings [d.1] and [d.2]. *)
Definition describes (item : Js.Value) (d : string * string) : Prop :=
  Js.get item "name" = Some (Js.Str d.1) ∧ Js.get item "url" = Some (Js.Str d.2).

(** The invariant the data model states for the shared cell, for a given
    notion of syntactic validity. *)
Definition IframeURL_inv (valid_url : string → Prop) (v : Js.Value) : Prop :=
  ∃ s, v = Js.Str s ∧ (valid_url s ∨ s = "" ∨ Js.Str s = State.iframeURLAtom_default).

Definition is_mount (ev : Event) : bool :=
  match ev with
  | Mount _ => true
  | _ => false
  end.

Definition is_set_iframe_url (ev : Event) : bool :=
  match ev with
  | SetIframeURL _ => true
  | _ => false
  end.

(** The strings typed into the text field in the course of [evs]. *)
Definition typed (evs : list Event) : list string :=
  omap (λ ev, match ev with FormInput s => Some s | _ => None end) evs.

(** More invariants of runs: the state of the form is there exactly while the
    form is; the selection is the initial one or a value that was chosen; the
    target and the text of the form come from the default, the empty string or
    the strings in [T]. *)
Definition committed (a : App) : Prop :=
  ∀ p, panel a = Some p → commit p = p.

Definition chosen (a : App) (log : list Effect) : Prop :=
  ∀ p, panel a = Some p →
       experimentURLValue p = Js.Str "" ∨ experimentURLValue p ∈ logged log.

Definition sourced (T : list string) (a : App) : Prop :=
  ∀ p, panel a = Some p →
       (url p = defaultUrl ∨ url p = "" ∨ url p ∈ T) ∧
       (∀ s, inputUrl p = Some s → s = "" ∨ s ∈ T).

End App.

(** * Properties *)

Section Rendering.

Import MLFlow.

Implicit Types (p : Panel) (t : Tag) (items : list Js.Value) (opts : list VNode).

Lemma menu_item_shaped item o : menu_item item = Some o → menu_shaped o.
Proof.
  unfold menu_item. intros H.
  destruct (Js.get item "url") as [u|]; simpl in H; [|discriminate].
  destruct (Js.get item "name") as [n|]; simpl in H; [|discriminate].
  exists (Js.to_key u), u, n. congruence.
Qed.

Lemma options_shaped items opts :
  mapM menu_item items = Some opts → Forall menu_shaped opts.
Proof.
  intros H%mapM_Some_1. induction H as [|item o ? ? Ho]; constructor; auto.
  eapply menu_item_shaped, Ho.
Qed.

Lemma elements_options t opts :
  Forall menu_shaped opts → t ≠ MenuItem → flat_map (elements t) opts = [].
Proof.
  intros H Ht. induction H as [|o opts (k & u & n & ->) _ IH]; [done|].
  simpl. destruct (decide (t = MenuItem)); [done|]. simpl. exact IH.
Qed.

Lemma elements_options_MenuItem opts :
  Forall menu_shaped opts →
  length (flat_map (elements MenuItem) opts) = length opts.
Proof.
  induction 1 as [|o opts (k & u & n & ->) _ IH]; [done|].
  simpl. by rewrite IH.
Qed.

Lemma render_loading p : loading p = true → MLFlowPanel p = Some loading_indicator.
Proof. unfold MLFlowPanel. by intros ->. Qed.

End Rendering.

Section Structure.

Import MLFlow.

Implicit Types (p : Panel) (t : Tag) (items : list Js.Value) (opts : list VNode).

Lemma render_loaded p tree :
  loading p = false → MLFlowPanel p = Some tree →
  ∃ items sel, experimentURLs p = Js.Arr items ∧ selector_slot p items sel ∧
               tree = page p items sel.
Proof.
  unfold MLFlowPanel, selector_slot. intros -> H.
  destruct (experimentURLs p) as [| | | | |items|]; try discriminate.
  exists items. case_bool_decide.
  - unfold selector in H. destruct (mapM menu_item items) as [opts|]; [|discriminate].
    simpl in H. eexists. split; [done|]. split; [eauto|congruence].
  - simpl in H. eexists. split; [done|]. split; [done|congruence].
Qed.

Lemma render_slot p items sel :
  loading p = false → experimentURLs p = Js.Arr items → selector_slot p items sel →
  MLFlowPanel p = Some (page p items sel).
Proof.
  unfold MLFlowPanel, selector_slot. intros -> -> H. case_bool_decide.
  - destruct H as (opts & Hm & ->). unfold selector. by rewrite Hm.
  - by subst.
Qed.

(** Whether the component throws depends on the executor handle alone. *)
Lemma render_is_Some_executor p q :
  getExperimentURLs p = getExperimentURLs q →
  is_Some (MLFlowPanel p) → is_Some (MLFlowPanel q).
Proof.
  unfold MLFlowPanel, loading, loadingExperimentURLs, experimentURLs, selector.
  intros <-. destruct (_ || _); [done|].
  destruct (Js.get_opt _ _) as [| | | | |items|]; try done.
  case_bool_decide; [|done].
  destruct (mapM menu_item items); simpl; [eauto|]. by intros [? ?].
Qed.

Lemma elements_slot t p items sel :
  selector_slot p items sel → t ≠ MenuItem → t ≠ Select → t ≠ Stack → t ≠ Typography →
  flat_map (elements t) sel = [].
Proof.
  unfold selector_slot. intros H ? ? ? ?. case_bool_decide; [|by subst].
  destruct H as (opts & Hm%options_shaped & ->). simpl.
  rewrite !decide_False by done. simpl.
  rewrite elements_options by done. done.
Qed.

Lemma elements_page t p items sel :
  elements t (page p items sel) =
  (if decide (t = Stack) then [([], children_of (page p items sel))] else [])
  ++ (if serverAvailable p then []
      else flat_map (elements t) [URLInputForm (default "" (inputUrl p))])
  ++ (if bool_decide (length items = 0)
      then flat_map (elements t) [Elem Box [] [Text (Js.Str "No experiments found")]]
      else [])
  ++ flat_map (elements t) sel
  ++ flat_map (elements t) [iframe (Js.or (experimentURLValue p) (Js.Str defaultUrl))].
Proof.
  unfold page. cbn [elements]. rewrite !flat_map_app.
  f_equal. f_equal; [by destruct (serverAvailable p)|].
  f_equal. by case_bool_decide.
Qed.

End Structure.

Section Offers.

Import MLFlow.

Implicit Types (p : Panel) (t : Tag) (items : list Js.Value) (opts : list VNode).

Lemma rendered_loading t p :
  loading p = true → t ≠ Box → t ≠ CircularProgress → rendered t p = [].
Proof.
  intros Hl ? ?. unfold rendered. rewrite (render_loading _ Hl). simpl.
  by rewrite !decide_False.
Qed.

Lemma rendered_None t p : MLFlowPanel p = None → rendered t p = [].
Proof. unfold rendered. by intros ->. Qed.

Lemma iframe_src_loaded p :
  loading p = false → is_Some (MLFlowPanel p) →
  iframe_src p = [Js.or (experimentURLValue p) (Js.Str defaultUrl)].
Proof.
  intros Hl [tree Ht]. unfold iframe_src, rendered. rewrite Ht. simpl.
  destruct (render_loaded _ _ Hl Ht) as (items & sel & _ & Hs & ->).
  rewrite elements_page, (elements_slot _ _ _ _ Hs) by done.
  destruct (serverAvailable p); case_bool_decide; reflexivity.
Qed.

Lemma form_elements_loaded p :
  loading p = false → is_Some (MLFlowPanel p) →
  length (rendered URLInputFormC p) = if serverAvailable p then 0 else 1.
Proof.
  intros Hl [tree Ht]. unfold rendered. rewrite Ht. simpl.
  destruct (render_loaded _ _ Hl Ht) as (items & sel & _ & Hs & ->).
  rewrite elements_page, (elements_slot _ _ _ _ Hs) by done.
  destruct (serverAvailable p); case_bool_decide; reflexivity.
Qed.

(** The form is in the tree exactly when the component returns the second
    tree and [serverAvailable] is false. *)
Lemma form_rendered_spec p :
  form_rendered p = true ↔
  is_Some (MLFlowPanel p) ∧ loading p = false ∧ serverAvailable p = false.
Proof.
  unfold form_rendered. rewrite bool_decide_eq_true. split.
  - intros H. destruct (MLFlowPanel p) as [tree|] eqn:Ht;
      [|by rewrite rendered_None in H].
    destruct (loading p) eqn:Hl; [by rewrite rendered_loading in H|].
    split; [eauto|]. split; [done|].
    pose proof (form_elements_loaded p Hl (mk_is_Some _ _ Ht)) as Hn.
    destruct (serverAvailable p); [|done].
    by destruct (rendered URLInputFormC p).
  - intros (Hs & Hl & Ha) Hr.
    pose proof (form_elements_loaded p Hl Hs) as Hn.
    rewrite Ha, Hr in Hn. done.
Qed.

Lemma form_rendered_false p :
  loading p = true ∨ serverAvailable p = true → form_rendered p = false.
Proof.
  intros H. destruct (form_rendered p) eqn:Hf; [|done].
  apply form_rendered_spec in Hf as (_ & ? & ?). destruct H; congruence.
Qed.

(** [commit] touches the state of the form only. *)
Lemma render_commit_is_Some p : is_Some (MLFlowPanel p) → is_Some (MLFlowPanel (commit p)).
Proof. by apply render_is_Some_executor. Qed.

Lemma form_rendered_same_flags p q :
  getExperimentURLs p = getExperimentURLs q → serverAvailable p = serverAvailable q →
  form_rendered p = form_rendered q.
Proof.
  intros He Ha. apply eq_true_iff_eq. rewrite !form_rendered_spec.
  unfold loading, loadingExperimentURLs, experimentURLs. rewrite He, Ha.
  split; intros (Hs & ? & ?); (split; [|done]).
  - by apply (render_is_Some_executor p q).
  - by apply (render_is_Some_executor q p).
Qed.

Lemma form_rendered_commit p : form_rendered (commit p) = form_rendered p.
Proof. by apply form_rendered_same_flags. Qed.

Lemma iframe_src_commit p : iframe_src (commit p) = iframe_src p.
Proof.
  destruct (MLFlowPanel p) as [tree|] eqn:Ht.
  - destruct (loading p) eqn:Hl.
    + unfold iframe_src. rewrite !rendered_loading; done.
    + rewrite !iframe_src_loaded; eauto using render_commit_is_Some.
  - unfold iframe_src. rewrite (rendered_None _ p) by done.
    rewrite rendered_None; [done|].
    destruct (MLFlowPanel (commit p)) eqn:Hc; [|done].
    assert (is_Some (MLFlowPanel p)) as [? ?]; [|congruence].
    eapply render_is_Some_executor; [|by eexists]. done.
Qed.

End Offers.

Section Steps.

Import MLFlow App.

Implicit Types (a : App) (p : Panel) (ev : Event) (effs log : list Effect).

Lemma update_inv a prev pending next effs a' effs' :
  update a prev pending (next, effs) = (a', effs') →
  iframeURLAtom a' = iframeURLAtom a ∧
  ((MLFlowPanel next = None ∧ panel a' = None ∧ inflight a' = [] ∧ effs' = effs) ∨
   (is_Some (MLFlowPanel next) ∧ panel a' = Some (commit next) ∧
    effs' = effs ++ probe_effect (Some (url prev)) (url next) ∧
    inflight a' = pending ++ fetches effs')).
Proof.
  unfold update. destruct (MLFlowPanel next) as [tree|]; intros [= <- <-]; simpl.
  - split; [done|]. right. eauto.
  - split; [done|]. by left.
Qed.

Lemma update_renders a prev pending next effs :
  is_Some (MLFlowPanel next) →
  update a prev pending (next, effs) =
  (mkApp (iframeURLAtom a) (Some (commit next))
         (pending ++ fetches (effs ++ probe_effect (Some (url prev)) (url next))),
   effs ++ probe_effect (Some (url prev)) (url next)).
Proof. unfold update. by intros [tree ->]. Qed.

Lemma fetches_probe_effect prev cur :
  fetches (probe_effect (Some prev) cur) = if decide (prev = cur) then [] else [cur].
Proof.
  unfold probe_effect. destruct (decide (prev = cur)) as [->|Hne].
  - by rewrite decide_True.
  - rewrite decide_False; [done|congruence].
Qed.

Lemma step_mounted a p ev a' effs :
  panel a = Some p → step a ev = Some (a', effs) →
  (∃ params, ev = SetIframeURL params ∧ effs = [] ∧
     a' = mkApp (default (iframeURLAtom a) (Operator.execute params)) (panel a) (inflight a)) ∨
  (ev = Unmount ∧ effs = [] ∧ a' = mkApp (iframeURLAtom a) None []) ∨
  (∃ pending r, handle a p ev = Some (pending, r) ∧ update a p pending r = (a', effs)).
Proof.
  unfold step. intros ->. destruct ev; intros H; try discriminate;
    try (right; right; destruct (handle a p _) as [[pending r]|];
         simplify_eq/=; by eauto).
  - right; left. by simplify_eq.
  - left. simplify_eq. eauto.
Qed.

Lemma step_unmounted a ev a' effs :
  panel a = None → step a ev = Some (a', effs) →
  (∃ params, ev = SetIframeURL params ∧ effs = [] ∧
     a' = mkApp (default (iframeURLAtom a) (Operator.execute params)) None (inflight a)) ∨
  (∃ e, ev = Mount e ∧
     ((MLFlowPanel (initial e) = None ∧ a' = a ∧ effs = []) ∨
      (is_Some (MLFlowPanel (initial e)) ∧ effs = mount_effects (initial e) ∧
       a' = mkApp (iframeURLAtom a) (Some (commit (initial e))) (fetches effs)))).
Proof.
  unfold step. intros Hp. rewrite Hp. destruct ev; simpl; intros H; try discriminate.
  - right. exists e. destruct (MLFlowPanel (initial e)) eqn:Hr; simplify_eq; eauto 6.
  - left. simplify_eq. eauto.
Qed.

End Steps.

(** The cases of one step: operator, unmount or handled event on a mounted
    panel; operator, failed mount or mount on an empty slot. *)
Ltac step_cases Hs :=
  lazymatch type of Hs with
  | App.step ?a _ = Some _ =>
      let p := fresh "p" in
      let Hp := fresh "Hp" in
      destruct (App.panel a) as [p|] eqn:Hp;
      [ destruct (step_mounted _ _ _ _ _ Hp Hs)
          as [(params & -> & -> & ->)|[(-> & -> & ->)|(pending & [next h] & Hh & Hu)]]
      | destruct (step_unmounted _ _ _ _ Hp Hs)
          as [(params & -> & -> & ->)|(e & -> & [(_ & -> & _)|(Hn & Heffs & ->)])] ]
  end.

Section Invariants.

Import MLFlow App.

Implicit Types (a : App) (p : Panel) (ev : Event) (effs log : list Effect).

Lemma handle_fields a p ev pending next effs :
  handle a p ev = Some (pending, (next, effs)) →
  fetches effs = [] ∧
  (serverAvailable next = serverAvailable p ∨ ∃ u ok, ev = ProbeSettled u ok ∧
                                                      serverAvailable next = ok).
Proof.
  unfold handle. destruct ev; simpl; intros H; try discriminate.
  - simplify_eq. auto.
  - case_decide; simplify_eq. split; [done|]. right. by exists u, ok.
  - destruct (select_options p !! k); simplify_eq/=.
    unfold handleExperimentURLChange in *. simplify_eq. auto.
  - destruct (form_rendered p); simplify_eq. auto.
  - destruct (form_rendered p); simplify_eq/=.
    unfold handleSubmit, handleUpdateUrl in *. simplify_eq. auto.
Qed.

Lemma step_renders a ev a' effs :
  step a ev = Some (a', effs) → renders a → renders a'.
Proof.
  intros Hs Hr. step_cases Hs.
  - intros q Hq. simpl in Hq. rewrite Hp in Hq. simplify_eq. by apply Hr.
  - by intros q Hq.
  - apply update_inv in Hu as (_ & [(_ & Hn & _)|(Hn & Hq & _)]);
      intros q Hq'; rewrite Hq' in *; simplify_eq.
    by apply render_commit_is_Some.
  - by intros q Hq.
  - done.
  - intros q Hq. simplify_eq/=. by apply render_commit_is_Some.
Qed.

Lemma run_renders evs a a' log :
  run a evs = Some (a', log) → renders a → renders a'.
Proof.
  revert a log. induction evs as [|ev evs IH]; intros a log H Hr.
  - by simplify_eq/=.
  - simpl in H. destruct (step a ev) as [[a1 effs]|] eqn:Hs; [|done]. simpl in H.
    destruct (run a1 evs) as [[a2 effs']|] eqn:Hrun; simplify_eq/=.
    eapply IH; eauto using step_renders.
Qed.

Lemma reachable_renders a : reachable a → renders a.
Proof.
  intros (evs & log & H). eapply run_renders; [exact H|]. by intros p Hp.
Qed.

(** The probe most recently issued is the probe of the current target. *)
Lemma step_tracks a ev a' effs log :
  step a ev = Some (a', effs) → tracks a log → tracks a' (log ++ effs).
Proof.
  intros Hs Ht. step_cases Hs.
  - intros q Hq. simpl in Hq. rewrite app_nil_r. apply Ht. congruence.
  - by intros q Hq.
  - apply handle_fields in Hh as (Hf & _).
    apply update_inv in Hu as (_ & [(_ & Hn & _)|(_ & Hq & -> & _)]);
      intros q Hq'; rewrite Hq' in *; simplify_eq.
    unfold fetches in *. rewrite !omap_app, Hf. fold (fetches log).
    change (omap _ (probe_effect ?x ?y)) with (fetches (probe_effect x y)).
    rewrite fetches_probe_effect. simpl. case_decide as Hd.
    + rewrite app_nil_r, <- Hd. by apply Ht.
    + by rewrite last_snoc.
  - by intros q Hq.
  - intros q Hq. congruence.
  - intros q Hq. subst effs. simplify_eq/=. unfold fetches. rewrite omap_app. simpl.
    by rewrite last_snoc.
Qed.

Lemma run_tracks evs a a' log log' :
  run a evs = Some (a', log') → tracks a log → tracks a' (log ++ log').
Proof.
  revert a log log'. induction evs as [|ev evs IH]; intros a log log' H Ht.
  - simplify_eq/=. by rewrite app_nil_r.
  - simpl in H. destruct (step a ev) as [[a1 effs]|] eqn:Hs; [|done]. simpl in H.
    destruct (run a1 evs) as [[a2 effs']|] eqn:Hrun; simplify_eq/=.
    rewrite app_assoc. eapply IH; eauto using step_tracks.
Qed.

(** Without a rejected probe the flag keeps its initial value. *)
Lemma step_calm a ev a' effs :
  step a ev = Some (a', effs) → is_rejection ev = false → calm a → calm a'.
Proof.
  intros Hs Hev Hc. step_cases Hs.
  - intros q Hq. simpl in Hq. apply Hc. congruence.
  - by intros q Hq.
  - apply handle_fields in Hh as (_ & Hf).
    apply update_inv in Hu as (_ & [(_ & Hn & _)|(_ & Hq & _)]);
      intros q Hq'; rewrite Hq' in *; simplify_eq. simpl.
    destruct Hf as [->|(u & ok & -> & ->)]; [by apply Hc|].
    by destruct ok.
  - by intros q Hq.
  - done.
  - intros q Hq. by simplify_eq/=.
Qed.

Lemma run_calm evs a a' log :
  run a evs = Some (a', log) → rejected evs = false → calm a → calm a'.
Proof.
  revert a log. induction evs as [|ev evs IH]; intros a log H Hn Hc.
  - by simplify_eq/=.
  - simpl in H. destruct (step a ev) as [[a1 effs]|] eqn:Hs; [|done]. simpl in H.
    destruct (run a1 evs) as [[a2 effs']|] eqn:Hrun; simplify_eq/=.
    apply orb_false_iff in Hn as [Hev Hn].
    eapply IH; [done|done|]. by eapply step_calm.
Qed.

End Invariants.

(** * The properties of the specification *)

Section Specification.

Import MLFlow App.

Implicit Types (a : App) (p : Panel) (ev : Event) (effs log : list Effect).

(** C6.  Running [set_iframe_url] with a parameter object whose [url] is the
    string [X] stores exactly [Js.Str X] in the shared cell, whatever the
    application state (panel absent, loading or loaded; any probes in
    flight); the panel slot and the probes are left as they were and no
    effect is performed. *)
Theorem set_iframe_url_writes_verbatim a (X : string) (fields : list (string * Js.Value)) :
  Js.lookup_field "url" fields = Some (Js.Str X) →
  step a (SetIframeURL (Js.Obj fields)) =
  Some (mkApp (Js.Str X) (panel a) (inflight a), []).
Proof.
  intros H. unfold step, Operator.execute, Js.get. simpl. rewrite H.
  by destruct (panel a).
Qed.

Lemma set_iframe_url_writes_verbatim_witness :
  Js.lookup_field "url" [("url", Js.Str "http://localhost:5000/#/experiments/3")] =
    Some (Js.Str "http://localhost:5000/#/experiments/3") ∧
  step (mkApp State.iframeURLAtom_default
              (Some (initial (mkExecutor true Js.Null))) [defaultUrl])
       (SetIframeURL (Js.Obj [("url", Js.Str "http://localhost:5000/#/experiments/3")])) =
  Some (mkApp (Js.Str "http://localhost:5000/#/experiments/3")
              (Some (initial (mkExecutor true Js.Null))) [defaultUrl], []).
Proof.
  split; [reflexivity|].
  apply (set_iframe_url_writes_verbatim
           (mkApp State.iframeURLAtom_default
                  (Some (initial (mkExecutor true Js.Null))) [defaultUrl])
           "http://localhost:5000/#/experiments/3"
           [("url", Js.Str "http://localhost:5000/#/experiments/3")]).
  reflexivity.
Defined.

(** C7.  When [isExecuting] is true, or the [urls] field of the remote result
    is absent or not an array (a result that is [null] or [undefined], as
    after a rejected call, has no [urls]), the panel returns the loading
    indicator and nothing else: a [Box] around one [CircularProgress], with no
    selector, no option, no iframe, no form and no text. *)
Theorem loading_renders_only_indicator p :
  isExecuting (getExperimentURLs p) = true ∨
  Js.isArray (Js.get_opt (result (getExperimentURLs p)) "urls") = false →
  MLFlowPanel p = Some (Elem Box [] [Elem CircularProgress [] []]) ∧
  rendered Select p = [] ∧ rendered MenuItem p = [] ∧ rendered Iframe p = [] ∧
  rendered URLInputFormC p = [] ∧ rendered_texts p = [].
Proof.
  intros H.
  assert (loading p = true) as Hl.
  { unfold loading, loadingExperimentURLs, experimentURLs.
    destruct H as [->| ->]; [done|]. by rewrite orb_true_r. }
  split; [by apply render_loading|].
  rewrite !rendered_loading by done. repeat split.
  unfold rendered_texts. by rewrite (render_loading _ Hl).
Qed.

Lemma loading_renders_only_indicator_witness :
  (isExecuting (mkExecutor false Js.Null) = true ∨
   Js.isArray (Js.get_opt (result (mkExecutor false Js.Null)) "urls") = false) ∧
  MLFlowPanel (mkPanel (mkExecutor false Js.Null) (Js.Str "http://x/1") false
                       defaultUrl None) =
  Some (Elem Box [] [Elem CircularProgress [] []]).
Proof.
  split; [right; reflexivity|].
  apply (loading_renders_only_indicator
           (mkPanel (mkExecutor false Js.Null) (Js.Str "http://x/1") false
                    defaultUrl None)).
  right. reflexivity.
Defined.

(** The iframe the panel shows, in every state: none while the component
    throws or loads, otherwise [experimentURLValue || defaultUrl]. *)
Lemma iframe_src_total p :
  iframe_src p =
  match MLFlowPanel p with
  | Some _ => if loading p then [] else [Js.or (experimentURLValue p) (Js.Str defaultUrl)]
  | None => []
  end.
Proof.
  destruct (MLFlowPanel p) as [tree|] eqn:Ht.
  - destruct (loading p) eqn:Hl.
    + unfold iframe_src. by rewrite rendered_loading.
    + by rewrite iframe_src_loaded.
  - unfold iframe_src. by rewrite rendered_None.
Qed.

(** C10.  [set_iframe_url] always runs, changes nothing but the shared cell
    (same panel state, same probes in flight, no effect), and what the panel
    slot shows does not depend on the shared cell: two applications that
    differ in the cell alone show the same tree, so the write leaves the view
    as it was; the iframe's [src] is determined by the local selection value
    and the hardcoded default. *)
Theorem set_iframe_url_frame a (params : Js.Value) :
  (∃ v, step a (SetIframeURL params) = Some (mkApp v (panel a) (inflight a), []) ∧
        view (mkApp v (panel a) (inflight a)) = view a) ∧
  (∀ v1 v2 pn fl, view (mkApp v1 pn fl) = view (mkApp v2 pn fl)) ∧
  (∀ p, iframe_src p =
        match MLFlowPanel p with
        | Some _ =>
            if loading p then []
            else [Js.or (experimentURLValue p) (Js.Str defaultUrl)]
        | None => []
        end).
Proof.
  split; [|split].
  - exists (default (iframeURLAtom a) (Operator.execute params)).
    split; [|done]. unfold step. by destruct (panel a).
  - done.
  - apply iframe_src_total.
Qed.

Lemma calm_init : calm init.
Proof. by intros p Hp. Qed.

Lemma tracks_init : tracks init [].
Proof. by intros p Hp. Qed.

(** C9.  A freshly mounted panel has [serverAvailable] true and shows no
    form; along any run of the application, as long as no probe has rejected
    the flag of the mounted panel is still true and the form is hidden; hence
    a state that shows the form has a rejected probe in its past. *)
Theorem form_hidden_until_rejection (evs : list Event) a log p :
  run init evs = Some (a, log) → panel a = Some p →
  (∀ e, serverAvailable (initial e) = true ∧ form_rendered (initial e) = false) ∧
  (rejected evs = false → serverAvailable p = true ∧ form_rendered p = false) ∧
  (form_rendered p = true → rejected evs = true).
Proof.
  intros Hrun Hp.
  assert (rejected evs = false → serverAvailable p = true ∧ form_rendered p = false)
    as Hcalm.
  { intros Hn. pose proof (run_calm _ _ _ _ Hrun Hn calm_init p Hp) as Hs.
    split; [done|]. apply form_rendered_false. by right. }
  split; [|split; [done|]].
  - intros e. split; [done|]. apply form_rendered_false. by right.
  - intros Hf. destruct (rejected evs); [done|].
    destruct Hcalm as [_ Hc]; [done|]. congruence.
Qed.

Lemma form_hidden_until_rejection_witness :
  rejected [Mount (mkExecutor false Js.Null);
            ExecutorUpdate (mkExecutor false (Js.Obj [("urls", Js.Arr [])]));
            ProbeSettled defaultUrl true] = false ∧
  form_rendered (mkPanel (mkExecutor false (Js.Obj [("urls", Js.Arr [])]))
                         (Js.Str "") true defaultUrl None) = false.
Proof.
  split; [reflexivity|].
  refine (proj2 (proj1 (proj2 (form_hidden_until_rejection
    [Mount (mkExecutor false Js.Null);
     ExecutorUpdate (mkExecutor false (Js.Obj [("urls", Js.Arr [])]));
     ProbeSettled defaultUrl true]
    (mkApp State.iframeURLAtom_default
       (Some (mkPanel (mkExecutor false (Js.Obj [("urls", Js.Arr [])]))
                      (Js.Str "") true defaultUrl None)) [])
    [Fetch defaultUrl; Execute operator_uri]
    (mkPanel (mkExecutor false (Js.Obj [("urls", Js.Arr [])]))
             (Js.Str "") true defaultUrl None)
    _ _)) _)).
  - vm_compute. reflexivity.
  - reflexivity.
  - reflexivity.
Defined.

Lemma commit_form_rendered p s :
  form_rendered p = true → inputUrl p = Some s → commit p = p.
Proof. unfold commit. intros -> Hi. rewrite Hi. destruct p; by simplify_eq/=. Qed.

Lemma step_form_input a p (S : string) :
  panel a = Some p → form_rendered p = true →
  step a (FormInput S) =
  Some (mkApp (iframeURLAtom a) (Some (setInputUrl (Some S) p)) (inflight a), []).
Proof.
  intros Hp Hf. pose proof Hf as (Hs & _)%form_rendered_spec.
  unfold step, handle. rewrite Hp. cbv beta iota. rewrite Hf.
  cbn [mbind option_bind]. rewrite update_renders by by apply (render_is_Some_executor p).
  rewrite (commit_form_rendered _ S);
    [|by rewrite (form_rendered_same_flags _ p)|done].
  unfold probe_effect. rewrite decide_True by done. by rewrite !app_nil_r.
Qed.

Lemma step_form_submit a p (s : string) :
  panel a = Some p → form_rendered p = true → inputUrl p = Some s →
  step a FormSubmit =
  Some (mkApp (iframeURLAtom a) (Some (setUrl s p))
              (inflight a ++ (if decide (url p = s) then [] else [s])),
        PreventDefault :: probe_effect (Some (url p)) s).
Proof.
  intros Hp Hf Hi. pose proof Hf as (Hs & _)%form_rendered_spec.
  unfold step, handle. rewrite Hp. cbv beta iota. rewrite Hf.
  unfold handleSubmit, handleUpdateUrl. rewrite Hi.
  cbn [default from_option id mbind option_bind]. rewrite update_renders by by apply (render_is_Some_executor p).
  rewrite (commit_form_rendered _ s);
    [|by rewrite (form_rendered_same_flags _ p)|done].
  change (url (setUrl s p)) with s.
  change (fetches ([PreventDefault] ++ ?l)) with (fetches l).
  by rewrite fetches_probe_effect.
Qed.

(** Typing [S] into the rendered form and submitting it. *)
Lemma type_and_submit a p (S : string) :
  panel a = Some p → form_rendered p = true →
  run a [FormInput S; FormSubmit] =
  Some (mkApp (iframeURLAtom a)
              (Some (mkPanel (getExperimentURLs p) (experimentURLValue p)
                             (serverAvailable p) S (Some S)))
              (inflight a ++ (if decide (url p = S) then [] else [S])),
        PreventDefault :: probe_effect (Some (url p)) S).
Proof.
  intros Hp Hf. cbn [run]. rewrite (step_form_input a p S Hp Hf). cbn [mbind option_bind].
  rewrite (step_form_submit _ (setInputUrl (Some S) p) S);
    [|done|by rewrite (form_rendered_same_flags _ p)|done].
  cbn. by rewrite app_nil_r.
Qed.

(** C8.  In any reachable state that shows the form, typing a non-empty
    string [S] and submitting makes [S] the probe target; the submission makes
    the prober fetch exactly [S] when [S] differs from the previous target and
    nothing otherwise, and in both cases the URL most recently fetched is
    [S] itself, character for character. *)
Theorem override_round_trip (evs : list Event) a log p (S : string) :
  run init evs = Some (a, log) → panel a = Some p → form_rendered p = true →
  S ≠ "" →
  ∃ a' log' p',
    run a [FormInput S; FormSubmit] = Some (a', log') ∧ panel a' = Some p' ∧
    url p' = S ∧
    fetches log' = (if decide (url p = S) then [] else [S]) ∧
    last (fetches (log ++ log')) = Some S.
Proof.
  intros Hrun Hp Hf _. eexists _, _, _.
  split; [by apply type_and_submit|]. split; [done|]. split; [done|].
  split; [simpl; apply fetches_probe_effect|].
  pose proof (run_tracks _ _ _ [] _ Hrun tracks_init) as Ht. simpl in Ht.
  pose proof (run_tracks _ _ _ log _ (type_and_submit a p S Hp Hf) Ht) as Ht'.
  by apply (Ht' _ eq_refl).
Qed.

Lemma override_round_trip_witness :
  ∃ a' log' p',
    run (mkApp State.iframeURLAtom_default
           (Some (mkPanel (mkExecutor false (Js.Obj [("urls", Js.Arr [])]))
                          (Js.Str "") false defaultUrl (Some ""))) [])
        [FormInput "http://localhost:8080"; FormSubmit] = Some (a', log') ∧
    panel a' = Some p' ∧ url p' = "http://localhost:8080" ∧
    fetches log' = ["http://localhost:8080"] ∧
    last (fetches ([Fetch defaultUrl; Execute operator_uri] ++ log')) =
      Some "http://localhost:8080".
Proof.
  apply (override_round_trip
    [Mount (mkExecutor false Js.Null);
     ExecutorUpdate (mkExecutor false (Js.Obj [("urls", Js.Arr [])]));
     ProbeSettled defaultUrl false]
    (mkApp State.iframeURLAtom_default
       (Some (mkPanel (mkExecutor false (Js.Obj [("urls", Js.Arr [])]))
                      (Js.Str "") false defaultUrl (Some ""))) [])
    [Fetch defaultUrl; Execute operator_uri]
    (mkPanel (mkExecutor false (Js.Obj [("urls", Js.Arr [])]))
             (Js.Str "") false defaultUrl (Some ""))
    "http://localhost:8080").
  - vm_compute. reflexivity.
  - reflexivity.
  - vm_compute. reflexivity.
  - discriminate.
Defined.

Lemma loading_same_executor p q :
  getExperimentURLs p = getExperimentURLs q → loading p = loading q.
Proof. unfold loading, loadingExperimentURLs, experimentURLs. by intros ->. Qed.

Lemma step_probe_settled a p (u : string) (ok : bool) :
  panel a = Some p → is_Some (MLFlowPanel p) → u ∈ inflight a →
  step a (ProbeSettled u ok) =
  Some (mkApp (iframeURLAtom a) (Some (commit (setServerAvailable ok p)))
              (remove_first u (inflight a)), []).
Proof.
  intros Hp Hs Hu. unfold step, handle. rewrite Hp. cbv beta iota.
  rewrite decide_True by done. cbn [mbind option_bind].
  rewrite update_renders by by apply (render_is_Some_executor p).
  unfold probe_effect. rewrite decide_True by done. by rewrite !app_nil_r.
Qed.

(** Every event on a mounted panel issues one probe, of the new target, when
    it changes the target, and none otherwise. *)
Lemma step_fetches a p ev a' effs p' :
  panel a = Some p → step a ev = Some (a', effs) → panel a' = Some p' →
  fetches effs = if decide (url p = url p') then [] else [url p'].
Proof.
  intros Hp Hs Hp'.
  destruct (step_mounted _ _ _ _ _ Hp Hs)
    as [(params & -> & -> & ->)|[(-> & -> & ->)|(pending & [next h] & Hh & Hu)]].
  - simpl in Hp'. rewrite Hp in Hp'. simplify_eq. by rewrite decide_True.
  - done.
  - apply handle_fields in Hh as (Hf & _).
    apply update_inv in Hu as (_ & [(_ & Hn & _)|(_ & Hq & -> & _)]);
      rewrite Hp' in *; simplify_eq.
    unfold fetches in *. rewrite omap_app, Hf.
    apply fetches_probe_effect.
Qed.

(** C4, counterexample.  A probe that rejects while the remote call is still
    executing sets [serverAvailable] to false, and the form is not rendered:
    the panel shows the loading indicator. *)
Lemma rejected_probe_while_loading_hides_form :
  ∃ a' log p',
    run init [Mount (mkExecutor true Js.Null); ProbeSettled defaultUrl false] =
      Some (a', log) ∧
    panel a' = Some p' ∧ serverAvailable p' = false ∧ form_rendered p' = false ∧
    MLFlowPanel p' = Some loading_indicator.
Proof. eexists _, _, _. vm_compute. repeat split. Qed.

(** C4, amended.  For a mounted panel in a reachable state and any probe in
    flight: when the probe resolves [serverAvailable] becomes true and the
    form is not rendered; when it rejects [serverAvailable] becomes false, and
    the form is then rendered exactly when the panel is not in its loading
    branch (while loading only the indicator is shown).  In every state of a
    mounted panel, whether or not a probe is in flight, an event that changes
    the probe target issues exactly one probe, of the new target, and an event
    that leaves the target as it is issues none; and submitting the rendered
    form does change the target to the form's text, with one probe of it when
    it differs from the previous target. *)
Theorem probe_outcome_and_reissue a p :
  panel a = Some p →
  (reachable a → ∀ u, u ∈ inflight a →
     (∃ a' p', step a (ProbeSettled u true) = Some (a', []) ∧ panel a' = Some p' ∧
               serverAvailable p' = true ∧ form_rendered p' = false) ∧
     (∃ a' p', step a (ProbeSettled u false) = Some (a', []) ∧ panel a' = Some p' ∧
               serverAvailable p' = false ∧ loading p' = loading p ∧
               form_rendered p' = negb (loading p))) ∧
  (∀ ev a' effs p', step a ev = Some (a', effs) → panel a' = Some p' →
                    fetches effs = if decide (url p = url p') then [] else [url p']) ∧
  (∀ s, form_rendered p = true → inputUrl p = Some s →
        ∃ a' effs p',
          step a FormSubmit = Some (a', effs) ∧ panel a' = Some p' ∧ url p' = s ∧
          fetches effs = (if decide (url p = s) then [] else [s]) ∧
          inflight a' = inflight a ++ (if decide (url p = s) then [] else [s])).
Proof.
  intros Hp. split; [|split].
  - intros Hr%reachable_renders u Hu. pose proof (Hr p Hp) as Hs. split.
    + eexists _, _. split; [by apply step_probe_settled|]. split; [done|].
      split; [done|]. apply form_rendered_false. by right.
    + eexists _, _. split; [by apply step_probe_settled|]. split; [done|].
      split; [done|]. split; [by apply loading_same_executor|].
      rewrite form_rendered_commit.
      rewrite <- (loading_same_executor (setServerAvailable false p) p) by done.
      destruct (loading (setServerAvailable false p)) eqn:Hl.
      * apply form_rendered_false. by left.
      * apply form_rendered_spec. split; [|done].
        by apply (render_is_Some_executor p).
  - intros ev a' effs p'. by apply step_fetches.
  - intros s Hf Hi. eexists _, _, _.
    split; [by apply (step_form_submit a p s)|]. split; [done|]. split; [done|].
    split; [|done].
    change (fetches (PreventDefault :: ?l)) with (fetches l).
    apply fetches_probe_effect.
Qed.

Lemma probe_outcome_and_reissue_witness :
  (reachable (mkApp State.iframeURLAtom_default
                (Some (mkPanel (mkExecutor false (Js.Obj [("urls", Js.Arr [])]))
                               (Js.Str "") true defaultUrl None)) [defaultUrl]) ∧
   ∃ a' p',
     step (mkApp State.iframeURLAtom_default
             (Some (mkPanel (mkExecutor false (Js.Obj [("urls", Js.Arr [])]))
                            (Js.Str "") true defaultUrl None)) [defaultUrl])
          (ProbeSettled defaultUrl false) = Some (a', []) ∧
     panel a' = Some p' ∧ serverAvailable p' = false ∧
     loading p' = false ∧ form_rendered p' = true) ∧
  (∃ a' effs p',
     step (mkApp State.iframeURLAtom_default
             (Some (mkPanel (mkExecutor false (Js.Obj [("urls", Js.Arr [])]))
                            (Js.Str "") false defaultUrl
                            (Some "http://localhost:8080"))) [])
          FormSubmit = Some (a', effs) ∧
     panel a' = Some p' ∧ url p' = "http://localhost:8080" ∧
     fetches effs = ["http://localhost:8080"] ∧
     inflight a' = ["http://localhost:8080"]).
Proof.
  assert (reachable (mkApp State.iframeURLAtom_default
               (Some (mkPanel (mkExecutor false (Js.Obj [("urls", Js.Arr [])]))
                              (Js.Str "") true defaultUrl None)) [defaultUrl])) as Hr.
  { exists [Mount (mkExecutor false Js.Null);
            ExecutorUpdate (mkExecutor false (Js.Obj [("urls", Js.Arr [])]))].
    eexists. vm_compute. reflexivity. }
  split; [split; [exact Hr|]|].
  - refine (proj2 (proj1 (probe_outcome_and_reissue
      (mkApp State.iframeURLAtom_default
         (Some (mkPanel (mkExecutor false (Js.Obj [("urls", Js.Arr [])]))
                        (Js.Str "") true defaultUrl None)) [defaultUrl])
      _ eq_refl) Hr defaultUrl _)).
    vm_compute. left.
  - exact (proj2 (proj2 (probe_outcome_and_reissue
      (mkApp State.iframeURLAtom_default
         (Some (mkPanel (mkExecutor false (Js.Obj [("urls", Js.Arr [])]))
                        (Js.Str "") false defaultUrl
                        (Some "http://localhost:8080"))) [])
      _ eq_refl)) "http://localhost:8080" eq_refl eq_refl).
Defined.

Lemma step_executor_update a p (e : Executor) :
  panel a = Some p → is_Some (MLFlowPanel (set_executor e p)) →
  step a (ExecutorUpdate e) =
  Some (mkApp (iframeURLAtom a) (Some (commit (set_executor e p))) (inflight a), []).
Proof.
  intros Hp Hs. unfold step, handle. rewrite Hp. cbv beta iota.
  cbn [mbind option_bind]. rewrite update_renders by done.
  unfold probe_effect. rewrite decide_True by done. by rewrite !app_nil_r.
Qed.

Lemma render_single p (item : Js.Value) :
  isExecuting (getExperimentURLs p) = false →
  Js.get_opt (result (getExperimentURLs p)) "urls" = Js.Arr [item] →
  loading p = false ∧ MLFlowPanel p = Some (page p [item] []).
Proof.
  intros He Hu.
  assert (loading p = false) as Hl.
  { unfold loading, loadingExperimentURLs, experimentURLs. by rewrite He, Hu. }
  split; [done|]. by apply render_slot.
Qed.

(** C5.  When the executor hands the panel a result whose [urls] is an array
    of exactly one item (a descriptor or anything else), the panel renders
    without a selector and without options; the arrival of the result does not
    touch the selection value, so the item's [url] is not selected for the
    user; the iframe's [src] is the selection value the user had set if there
    is one (a truthy value), and the hardcoded default otherwise. *)
Theorem single_descriptor_no_selector a p (e : Executor) (item : Js.Value) :
  panel a = Some p → isExecuting e = false →
  Js.get_opt (result e) "urls" = Js.Arr [item] →
  ∃ a' p',
    step a (ExecutorUpdate e) = Some (a', []) ∧ panel a' = Some p' ∧
    is_Some (MLFlowPanel p') ∧
    rendered Select p' = [] ∧ rendered MenuItem p' = [] ∧
    experimentURLValue p' = experimentURLValue p ∧
    iframe_src p' = [if Js.truthy (experimentURLValue p)
                     then experimentURLValue p else Js.Str defaultUrl].
Proof.
  intros Hp He Hu.
  destruct (render_single (set_executor e p) item He Hu) as [Hl Hs].
  destruct (render_single (commit (set_executor e p)) item He Hu) as [Hl' Hs'].
  eexists _, _. split; [apply step_executor_update; [done|by eexists]|].
  split; [done|]. split; [by eexists|].
  split; [|split; [|split; [done|]]].
  - unfold rendered. rewrite Hs'. cbn [from_option]. rewrite elements_page.
    by destruct (serverAvailable _).
  - unfold rendered. rewrite Hs'. cbn [from_option]. rewrite elements_page.
    by destruct (serverAvailable _).
  - rewrite iframe_src_loaded; [done|done|by eexists].
Qed.

Lemma single_descriptor_no_selector_witness :
  ∃ a' p',
    step (mkApp State.iframeURLAtom_default
                (Some (initial (mkExecutor true Js.Null))) [defaultUrl])
         (ExecutorUpdate
            (mkExecutor false
               (Js.Obj [("urls", Js.Arr [Js.Obj [("name", Js.Str "exp-1");
                                                 ("url", Js.Str "http://x/1")]])])))
      = Some (a', []) ∧
    panel a' = Some p' ∧ is_Some (MLFlowPanel p') ∧
    rendered Select p' = [] ∧ rendered MenuItem p' = [] ∧
    experimentURLValue p' = Js.Str "" ∧
    iframe_src p' = [Js.Str defaultUrl].
Proof.
  apply (single_descriptor_no_selector
    (mkApp State.iframeURLAtom_default
           (Some (initial (mkExecutor true Js.Null))) [defaultUrl])
    (initial (mkExecutor true Js.Null))
    (mkExecutor false
       (Js.Obj [("urls", Js.Arr [Js.Obj [("name", Js.Str "exp-1");
                                         ("url", Js.Str "http://x/1")]])]))
    (Js.Obj [("name", Js.Str "exp-1"); ("url", Js.Str "http://x/1")]));
    reflexivity.
Defined.

Lemma descriptors_options (items : list Js.Value) (ds : list (string * string)) :
  Forall2 describes items ds → mapM menu_item items = Some (option_node <$> ds).
Proof.
  intros H. apply mapM_Some. induction H as [|item d items ds [Hn Hu] _ IH].
  - constructor.
  - rewrite fmap_cons. constructor; [|exact IH].
    unfold menu_item, option_node. by rewrite Hu, Hn.
Qed.

Lemma elements_option_nodes (ds : list (string * string)) :
  flat_map (elements MenuItem) (option_node <$> ds) =
  (λ d, ([("key", Js.Str d.2); ("value", Js.Str d.2)], [Text (Js.Str d.1)])) <$> ds.
Proof.
  induction ds as [|d ds IH]; [done|].
  rewrite !fmap_cons. cbn [flat_map]. rewrite IH. reflexivity.
Qed.

Lemma render_descriptors p (items : list Js.Value) (ds : list (string * string)) :
  isExecuting (getExperimentURLs p) = false →
  Js.get_opt (result (getExperimentURLs p)) "urls" = Js.Arr items →
  Forall2 describes items ds → (2 ≤ length ds)%nat →
  loading p = false ∧
  MLFlowPanel p =
  Some (page p items [select_row (experimentURLValue p) (option_node <$> ds)]).
Proof.
  intros He Hu Hd Hn.
  assert (loading p = false) as Hl.
  { unfold loading, loadingExperimentURLs, experimentURLs. by rewrite He, Hu. }
  split; [done|]. apply render_slot; [done..|].
  unfold selector_slot. rewrite (Forall2_length _ _ _ Hd).
  rewrite bool_decide_eq_true_2 by lia.
  eexists. split; [by apply descriptors_options|done].
Qed.

Lemma step_select_change a p (k : nat) (v : Js.Value) :
  panel a = Some p → is_Some (MLFlowPanel p) → select_options p !! k = Some v →
  step a (SelectChange k) =
  Some (mkApp (iframeURLAtom a) (Some (commit (setExperimentURLValue v p)))
              (inflight a), [ConsoleLog v]).
Proof.
  intros Hp Hs Hk. unfold step, handle. rewrite Hp. cbv beta iota. rewrite Hk.
  cbn [mbind option_bind]. unfold handleExperimentURLChange.
  rewrite update_renders by by apply (render_is_Some_executor p).
  unfold probe_effect. rewrite decide_True by done. by rewrite !app_nil_r.
Qed.

(** C3, counterexample.  With two descriptors of which the first has the
    empty string as its [url], choosing the first option leaves the iframe at
    the hardcoded default instead of that descriptor's [url]. *)
Lemma empty_url_option_falls_back_to_default :
  ∃ a log a' effs p',
    run init
      [Mount (mkExecutor true Js.Null);
       ExecutorUpdate
         (mkExecutor false
            (Js.Obj [("urls",
               Js.Arr [Js.Obj [("name", Js.Str "blank"); ("url", Js.Str "")];
                       Js.Obj [("name", Js.Str "exp-2");
                               ("url", Js.Str "http://x/2")]])]))]
      = Some (a, log) ∧
    step a (SelectChange 0) = Some (a', effs) ∧ panel a' = Some p' ∧
    experimentURLValue p' = Js.Str "" ∧
    iframe_src p' = [Js.Str defaultUrl] ∧ iframe_src p' ≠ [Js.Str ""].
Proof. eexists _, _, _, _, _. vm_compute. repeat split. discriminate. Qed.

(** C3, amended.  When the panel holds a result whose [urls] is an array of
    N >= 2 descriptors, the rendered [Select] has exactly N options, the i-th
    being a [MenuItem] whose label is the i-th descriptor's [name] and whose
    [value] is its [url]; choosing option k stores descriptor k's [url] as the
    selection value, and the iframe's [src] becomes that [url] when it is a
    non-empty string; for the empty string the [src] is the hardcoded
    default. *)
Theorem selector_options_and_choice a p (items : list Js.Value)
    (ds : list (string * string)) :
  panel a = Some p → isExecuting (getExperimentURLs p) = false →
  Js.get_opt (result (getExperimentURLs p)) "urls" = Js.Arr items →
  Forall2 describes items ds → (2 ≤ length ds)%nat →
  snd <$> rendered Select p = [option_node <$> ds] ∧
  length (select_options p) = length ds ∧
  select_options p = (λ d, Js.Str d.2) <$> ds ∧
  select_labels p = (λ d, [Text (Js.Str d.1)]) <$> ds ∧
  ∀ k d, ds !! k = Some d →
    ∃ a' p', step a (SelectChange k) = Some (a', [ConsoleLog (Js.Str d.2)]) ∧
             panel a' = Some p' ∧ experimentURLValue p' = Js.Str d.2 ∧
             iframe_src p' = [if decide (d.2 = "") then Js.Str defaultUrl
                              else Js.Str d.2].
Proof.
  intros Hp He Hu Hd Hn.
  destruct (render_descriptors p items ds He Hu Hd Hn) as [Hl Hs].
  assert (rendered MenuItem p =
          (λ d, ([("key", Js.Str d.2); ("value", Js.Str d.2)],
                 [Text (Js.Str d.1)])) <$> ds) as Hm.
  { unfold rendered. rewrite Hs. cbn [from_option]. rewrite elements_page.
    cbn [flat_map elements select_row]. rewrite ?decide_False by done.
    rewrite ?decide_True by done. rewrite elements_option_nodes.
    destruct (serverAvailable p); case_bool_decide; simpl; by rewrite ?app_nil_r. }
  assert (select_options p = (λ d, Js.Str d.2) <$> ds) as Ho.
  { unfold select_options. rewrite Hm, <- list_fmap_compose. done. }
  split; [|split; [|split; [done|split]]].
  - unfold rendered. rewrite Hs. cbn [from_option]. rewrite elements_page.
    cbn [flat_map elements select_row]. rewrite ?decide_False by done.
    rewrite ?decide_True by done.
    rewrite (elements_options Select (option_node <$> ds));
      [|eapply options_shaped, descriptors_options, Hd|done].
    destruct (serverAvailable p); case_bool_decide; reflexivity.
  - by rewrite Ho, length_fmap.
  - unfold select_labels. rewrite Hm, <- list_fmap_compose. done.
  - intros k d Hk.
    assert (select_options p !! k = Some (Js.Str d.2)) as Hv.
    { by rewrite Ho, list_lookup_fmap, Hk. }
    eexists _, _. split; [apply step_select_change; [done|by eexists|done]|].
    split; [done|]. split; [done|].
    rewrite iframe_src_commit, iframe_src_loaded;
      [|done|by apply (render_is_Some_executor p); [|eexists]].
    unfold Js.or. simpl. case_decide as Hz.
    + by rewrite Hz.
    + by rewrite (proj2 (String.eqb_neq _ _) Hz).
Qed.

Lemma selector_options_and_choice_witness :
  ∃ a' p',
    step (mkApp State.iframeURLAtom_default
            (Some (mkPanel
                     (mkExecutor false
                        (Js.Obj [("urls",
                           Js.Arr [Js.Obj [("name", Js.Str "exp-1");
                                           ("url", Js.Str "http://x/1")];
                                   Js.Obj [("name", Js.Str "exp-2");
                                           ("url", Js.Str "http://x/2")]])]))
                     (Js.Str "") true defaultUrl None)) [])
         (SelectChange 1) = Some (a', [ConsoleLog (Js.Str "http://x/2")]) ∧
    panel a' = Some p' ∧ experimentURLValue p' = Js.Str "http://x/2" ∧
    iframe_src p' = [Js.Str "http://x/2"].
Proof.
  refine (proj2 (proj2 (proj2 (proj2 (selector_options_and_choice
    (mkApp State.iframeURLAtom_default
            (Some (mkPanel
                     (mkExecutor false
                        (Js.Obj [("urls",
                           Js.Arr [Js.Obj [("name", Js.Str "exp-1");
                                           ("url", Js.Str "http://x/1")];
                                   Js.Obj [("name", Js.Str "exp-2");
                                           ("url", Js.Str "http://x/2")]])]))
                     (Js.Str "") true defaultUrl None)) [])
    _ _ [("exp-1", "http://x/1"); ("exp-2", "http://x/2")]
    eq_refl eq_refl eq_refl _ _))))
    1 ("exp-2", "http://x/2") eq_refl).
  - repeat constructor.
  - simpl. lia.
Defined.

(** Only [set_iframe_url] writes the shared cell. *)
Lemma step_atom a ev a' effs :
  step a ev = Some (a', effs) →
  iframeURLAtom a' =
  match ev with
  | SetIframeURL params => default (iframeURLAtom a) (Operator.execute params)
  | _ => iframeURLAtom a
  end.
Proof.
  intros Hs. step_cases Hs; try done.
  apply update_inv in Hu as [-> _]. by destruct ev.
Qed.

Lemma IframeURL_inv_default (valid_url : string → Prop) :
  IframeURL_inv valid_url State.iframeURLAtom_default.
Proof. eexists. split; [reflexivity|]. right. by right. Qed.

(** C2, counterexample.  Running [set_iframe_url] with [{url: null}] in the
    initial application stores [null] in the shared cell; hence for no notion
    of syntactic validity is the invariant preserved by the handler. *)
Lemma set_iframe_url_null_breaks_invariant :
  step init (SetIframeURL (Js.Obj [("url", Js.Null)])) =
    Some (mkApp Js.Null None [], []) ∧
  ¬ ∃ valid_url : string → Prop,
      ∀ a params a' effs,
        IframeURL_inv valid_url (iframeURLAtom a) →
        step a (SetIframeURL params) = Some (a', effs) →
        IframeURL_inv valid_url (iframeURLAtom a').
Proof.
  split; [reflexivity|]. intros [valid_url H].
  destruct (H init (Js.Obj [("url", Js.Null)]) _ _
              (IframeURL_inv_default valid_url) eq_refl) as (s & Hs & _).
  discriminate.
Qed.

(** C2, amended.  The shared cell starts at the default URL, which satisfies
    the invariant.  In every state, whatever the cell holds: of the events of
    the application only [set_iframe_url] writes the cell - the override
    form, the selector and every other event leave it as it is; the handler
    stores [params.url] verbatim, without validation, whatever value it is,
    so that [{url: null}] leaves [null] in the cell, which breaks the
    invariant, and after a call the invariant holds exactly when the supplied
    [url] satisfies it.  Hence a step preserves the invariant provided that
    any [url] handed to [set_iframe_url] itself satisfies it. *)
Theorem shared_cell_invariant_amended (valid_url : string → Prop) a :
  IframeURL_inv valid_url (iframeURLAtom init) ∧
  (∀ ev a' effs, step a ev = Some (a', effs) → is_set_iframe_url ev = false →
                 iframeURLAtom a' = iframeURLAtom a) ∧
  (∀ params v, Js.get params "url" = Some v →
     step a (SetIframeURL params) = Some (mkApp v (panel a) (inflight a), []) ∧
     (IframeURL_inv valid_url (iframeURLAtom (mkApp v (panel a) (inflight a))) ↔
      IframeURL_inv valid_url v)) ∧
  (step a (SetIframeURL (Js.Obj [("url", Js.Null)])) =
     Some (mkApp Js.Null (panel a) (inflight a), []) ∧
   ¬ IframeURL_inv valid_url Js.Null) ∧
  (∀ ev a' effs,
     IframeURL_inv valid_url (iframeURLAtom a) →
     step a ev = Some (a', effs) →
     (∀ params v, ev = SetIframeURL params → Js.get params "url" = Some v →
                  IframeURL_inv valid_url v) →
     IframeURL_inv valid_url (iframeURLAtom a')).
Proof.
  split; [apply IframeURL_inv_default|]. split; [|split; [|split]].
  - intros ev a' effs Hs Hev. rewrite (step_atom _ _ _ _ Hs). by destruct ev.
  - intros params v Hv. split; [|done].
    unfold step, Operator.execute. rewrite Hv. by destruct (panel a).
  - split; [unfold step; by destruct (panel a)|]. by intros (s & ? & _).
  - intros ev a' effs Hinv Hs Hurl. rewrite (step_atom _ _ _ _ Hs).
    destruct ev; try done.
    unfold Operator.execute. destruct (Js.get params "url") as [v|] eqn:Hv; [|done].
    simpl. by eapply Hurl.
Qed.

Lemma shared_cell_invariant_amended_witness :
  (∃ a' effs,
     step (mkApp Js.Null
             (Some (mkPanel (mkExecutor false (Js.Obj [("urls", Js.Arr [])]))
                            (Js.Str "") false defaultUrl
                            (Some "http://localhost:8080"))) [])
          FormSubmit = Some (a', effs) ∧
     iframeURLAtom a' = Js.Null) ∧
  step (mkApp Js.Null None [])
       (SetIframeURL (Js.Obj [("url", Js.Str "not a url")])) =
    Some (mkApp (Js.Str "not a url") None [], []) ∧
  IframeURL_inv (λ s, String.prefix "http://" s = true)
                (Js.Str "http://localhost:5000/#/experiments/1").
Proof.
  split; [|split].
  - eexists _, _. split; [reflexivity|].
    exact (proj1 (proj2 (shared_cell_invariant_amended (λ _, True)
      (mkApp Js.Null
         (Some (mkPanel (mkExecutor false (Js.Obj [("urls", Js.Arr [])]))
                        (Js.Str "") false defaultUrl
                        (Some "http://localhost:8080"))) []))) FormSubmit _ _
      eq_refl eq_refl).
  - exact (proj1 (proj1 (proj2 (proj2 (shared_cell_invariant_amended (λ _, True)
      (mkApp Js.Null None []))))
      (Js.Obj [("url", Js.Str "not a url")]) (Js.Str "not a url") eq_refl)).
  - refine (proj2 (proj2 (proj2 (proj2 (shared_cell_invariant_amended
      (λ s, String.prefix "http://" s = true) init))))
      (SetIframeURL (Js.Obj [("url", Js.Str "http://localhost:5000/#/experiments/1")]))
      (mkApp (Js.Str "http://localhost:5000/#/experiments/1") None []) []
      _ eq_refl _).
    + exists "http://127.0.0.1:5000". split; [reflexivity|]. left. reflexivity.
    + intros params v [= <-] [= <-].
      exists "http://localhost:5000/#/experiments/1". split; [reflexivity|].
      left. reflexivity.
Defined.

(** Submitting the form leaves the iframe where it was, in every state. *)
Lemma submit_keeps_iframe_src a p (S : string) a' log p' :
  panel a = Some p → form_rendered p = true →
  run a [FormInput S; FormSubmit] = Some (a', log) → panel a' = Some p' →
  url p' = S ∧ iframe_src p' = iframe_src p.
Proof.
  intros Hp Hf Hrun Hp'. rewrite (type_and_submit a p S Hp Hf) in Hrun.
  simplify_eq/=. split; [done|].
  pose proof Hf as (Hs & _)%form_rendered_spec.
  rewrite !iframe_src_total.
  destruct Hs as [tree Ht]. rewrite Ht.
  destruct (render_is_Some_executor p
              (mkPanel (getExperimentURLs p) (experimentURLValue p)
                       (serverAvailable p) S (Some S)) eq_refl (mk_is_Some _ _ Ht))
    as [tree' ->].
  by rewrite (loading_same_executor _ p).
Qed.

(** In the earlier revision of the panel the submitted URL is the iframe's
    source. *)
Lemma legacy_submit_reaches_iframe (p : LegacyPanel.Panel) (S : string) :
  LegacyPanel.url (LegacyPanel.handleUpdateUrl S p) = S ∧
  LegacyPanel.iframe_src (LegacyPanel.handleUpdateUrl S p) = [Js.Str S].
Proof.
  split; [done|]. unfold LegacyPanel.iframe_src, LegacyPanel.MLFlowPanel.
  by destruct p as [[] ? ?].
Qed.

(** C1.  The run: the panel is mounted, the remote call returns an empty list
    of experiments, the probe of the default URL rejects, and the user types
    [http://localhost:8080] into the override form and submits it.  The
    submitted string becomes the probe target and is fetched, but the iframe's
    [src] is the hardcoded default before and after the submission: the
    override never reaches the iframe. *)
Theorem override_does_not_reach_iframe :
  ∃ a log p a' log' p',
    run init [Mount (mkExecutor true Js.Null);
              ExecutorUpdate (mkExecutor false (Js.Obj [("urls", Js.Arr [])]));
              ProbeSettled defaultUrl false] = Some (a, log) ∧
    panel a = Some p ∧ form_rendered p = true ∧
    run a [FormInput "http://localhost:8080"; FormSubmit] = Some (a', log') ∧
    panel a' = Some p' ∧
    url p' = "http://localhost:8080" ∧ fetches log' = ["http://localhost:8080"] ∧
    iframe_src p = [Js.Str "http://127.0.0.1:5000"] ∧
    iframe_src p' = [Js.Str "http://127.0.0.1:5000"].
Proof. eexists _, _, _, _, _, _. vm_compute. repeat split. Qed.

End Specification.

(** * Further properties of the code *)

Section Further.

Import MLFlow App.

Implicit Types (a : App) (p : Panel) (ev : Event) (effs log : list Effect).
Implicit Types (items : list Js.Value).








Lemma slot_counts p items (sel : list VNode) :
  selector_slot p items sel →
  length (flat_map (elements Select) sel) =
    (if bool_decide (1 < length items) then 1 else 0)%nat ∧
  length (flat_map (elements MenuItem) sel) =
    (if bool_decide (1 < length items) then length items else 0)%nat.
Proof.
  unfold selector_slot. case_bool_decide; [|by intros ->].
  intros (opts & Hm & ->). pose proof (options_shaped _ _ Hm) as Hsh.
  cbn [flat_map elements select_row].
  repeat (case_decide; try done).
  rewrite (elements_options Select) by done.
  split; [done|]. cbn [app]. rewrite !app_nil_r, elements_options_MenuItem by done.
  symmetry. by eapply length_mapM.
Qed.

(** X3.  Past the loading guard, whenever the component returns a tree, the
    tree holds exactly one iframe and no progress indicator; one [Select]
    with one option per item when [urls] has at least two items, and neither
    a [Select] nor an option otherwise; and one override form when
    [serverAvailable] is false, none when it is true. *)
Theorem loaded_layout p items :
  is_Some (MLFlowPanel p) → isExecuting (getExperimentURLs p) = false →
  Js.get_opt (result (getExperimentURLs p)) "urls" = Js.Arr items →
  length (rendered Iframe p) = 1%nat ∧
  rendered CircularProgress p = [] ∧
  length (rendered Select p) = (if bool_decide (1 < length items) then 1 else 0)%nat ∧
  length (rendered MenuItem p) =
    (if bool_decide (1 < length items) then length items else 0)%nat ∧
  length (rendered URLInputFormC p) = (if serverAvailable p then 0 else 1)%nat.
Proof.
  intros [tree Ht] He Hu.
  assert (loading p = false) as Hl.
  { unfold loading, loadingExperimentURLs, experimentURLs. by rewrite He, Hu. }
  destruct (render_loaded _ _ Hl Ht) as (items' & sel & Hi & Hs & ->).
  unfold experimentURLs in Hi. rewrite Hu in Hi. injection Hi as <-.
  destruct (slot_counts _ _ _ Hs) as [Hsel Hopt].
  unfold rendered. rewrite Ht. cbn [from_option]. rewrite !elements_page.
  rewrite (elements_slot Iframe _ _ _ Hs), (elements_slot CircularProgress _ _ _ Hs),
    (elements_slot URLInputFormC _ _ _ Hs) by done.
  rewrite ?decide_False by done. rewrite !length_app, Hsel, Hopt.
  repeat split; destruct (serverAvailable p); repeat case_bool_decide;
    reflexivity || (simpl; lia).
Qed.

Lemma loaded_layout_witness :
  length (rendered MenuItem
            (mkPanel
               (mkExecutor false
                  (Js.Obj [("urls", Js.Arr [Js.Num 1; Js.Str "x"; Js.Obj []])]))
               (Js.Str "") false defaultUrl (Some "typed"))) = 3%nat.
Proof.
  refine (proj1 (proj2 (proj2 (proj2 (loaded_layout
    (mkPanel
       (mkExecutor false
          (Js.Obj [("urls", Js.Arr [Js.Num 1; Js.Str "x"; Js.Obj []])]))
       (Js.Str "") false defaultUrl (Some "typed"))
    [Js.Num 1; Js.Str "x"; Js.Obj []] _ eq_refl eq_refl))))).
  vm_compute. eauto.
Defined.

Lemma render_empty p :
  isExecuting (getExperimentURLs p) = false →
  Js.get_opt (result (getExperimentURLs p)) "urls" = Js.Arr [] →
  loading p = false ∧ MLFlowPanel p = Some (page p [] []).
Proof.
  intros He Hu.
  assert (loading p = false) as Hl.
  { unfold loading, loadingExperimentURLs, experimentURLs. by rewrite He, Hu. }
  split; [done|]. by apply render_slot.
Qed.

(** X4.  The tree holds the empty-state message "No experiments found"
    exactly when the panel is past the loading guard and the [urls] array is
    empty. *)
Theorem empty_state_iff p :
  empty_state ∈ rendered Box p ↔
  isExecuting (getExperimentURLs p) = false ∧
  Js.get_opt (result (getExperimentURLs p)) "urls" = Js.Arr [].
Proof.
  unfold empty_state. split.
  - intros Hin. destruct (MLFlowPanel p) as [tree|] eqn:Ht;
      [|rewrite rendered_None in Hin by done; by apply elem_of_nil in Hin].
    destruct (loading p) eqn:Hl.
    { unfold rendered in Hin. rewrite (render_loading _ Hl) in Hin.
      cbn in Hin. apply list_elem_of_singleton in Hin. discriminate. }
    destruct (render_loaded _ _ Hl Ht) as (items & sel & Hi & Hs & ->).
    unfold loading, loadingExperimentURLs, experimentURLs in *.
    apply orb_false_iff in Hl as [He _]. split; [done|]. rewrite Hi. f_equal.
    unfold rendered in Hin. rewrite Ht in Hin. cbn [from_option] in Hin.
    rewrite elements_page, (elements_slot _ _ _ _ Hs) in Hin by done.
    rewrite decide_False in Hin by done.
    case_bool_decide as Hz; [by destruct items|].
    destruct (serverAvailable p); cbn in Hin;
      repeat (apply elem_of_cons in Hin as [Hin|Hin]; [discriminate|]);
      by apply elem_of_nil in Hin.
  - intros [He Hu].
    destruct (render_empty p He Hu) as [Hl Hs].
    unfold rendered. rewrite Hs. cbn [from_option]. rewrite elements_page.
    do 2 (apply elem_of_app; right). apply elem_of_app; left.
    cbn. apply elem_of_cons. by left.
Qed.

Lemma run_app a (evs1 evs2 : list Event) a' log :
  run a (evs1 ++ evs2) = Some (a', log) →
  ∃ a1 log1 log2, run a evs1 = Some (a1, log1) ∧ run a1 evs2 = Some (a', log2) ∧
                  log = log1 ++ log2.
Proof.
  revert a log. induction evs1 as [|ev evs1 IH]; intros a log H.
  - exists a, [], log. by rewrite app_nil_l in H.
  - rewrite <- app_comm_cons in H. cbn [run] in H |- *.
    destruct (step a ev) as [[a0 effs]|]; [|done]. cbn [mbind option_bind] in H |- *.
    destruct (run a0 (evs1 ++ evs2)) as [[a2 effs']|] eqn:Hr; simplify_eq/=.
    destruct (IH _ _ Hr) as (a1 & log1 & log2 & -> & H2 & ->).
    exists a1, (effs ++ log1), log2. by rewrite app_assoc.
Qed.

(** What the handlers of the mounted panel do and do not touch. *)
Lemma handle_shape a p ev (pending : list string) (next : Panel) effs :
  handle a p ev = Some (pending, (next, effs)) →
  executes effs = [] ∧
  (experimentURLValue next = experimentURLValue p ∧ logged effs = [] ∨
   logged effs = [experimentURLValue next]) ∧
  (url next = url p ∨ ev = FormSubmit ∧ url next = default "" (inputUrl p)) ∧
  (inputUrl next = inputUrl p ∨ ∃ s, ev = FormInput s ∧ inputUrl next = Some s).
Proof.
  unfold handle. intros H. destruct ev; try discriminate.
  - simplify_eq. cbn. auto 6.
  - case_decide; simplify_eq. cbn. auto 6.
  - destruct (select_options p !! k); simplify_eq/=.
    unfold handleExperimentURLChange in *. simplify_eq. cbn. auto 6.
  - destruct (form_rendered p); simplify_eq. cbn.
    repeat split; auto. right. by exists s.
  - destruct (form_rendered p); simplify_eq/=.
    unfold handleSubmit, handleUpdateUrl in *. simplify_eq. cbn. auto 6.
Qed.

Lemma executes_probe_effect (prev : option string) (cur : string) :
  executes (probe_effect prev cur) = [] ∧ logged (probe_effect prev cur) = [].
Proof. unfold probe_effect. by case_decide. Qed.

(** The four shapes of a step: nothing happens to the panel slot (operator,
    or a mount whose first render throws); the panel goes away (unmount, or a
    render that throws); the panel is mounted; a handler of the mounted panel
    runs and the panel is rendered again. *)
Lemma step_inv a ev a' effs :
  step a ev = Some (a', effs) →
  (panel a' = panel a ∧ effs = [] ∧
   (is_set_iframe_url ev = true ∨ is_mount ev = true)) ∨
  (panel a' = None ∧ executes effs = [] ∧ fetches effs = [] ∧
   is_set_iframe_url ev = false ∧ is_mount ev = false) ∨
  (∃ e, ev = Mount e ∧ panel a = None ∧ panel a' = Some (commit (initial e)) ∧
        effs = mount_effects (initial e)) ∨
  (∃ p pending next h,
     panel a = Some p ∧ handle a p ev = Some (pending, (next, h)) ∧
     panel a' = Some (commit next) ∧
     effs = h ++ probe_effect (Some (url p)) (url next)).
Proof.
  intros Hs. destruct (panel a) as [p|] eqn:Hp.
  - destruct (step_mounted _ _ _ _ _ Hp Hs)
      as [(params & -> & -> & ->)|[(-> & -> & ->)|(pending & [next h] & Hh & Hu)]].
    + left. cbn. auto.
    + right; left. cbn. auto.
    + pose proof (handle_shape _ _ _ _ _ _ Hh) as (He & _).
      pose proof (handle_fields _ _ _ _ _ _ Hh) as (Hf & _).
      apply update_inv in Hu as (_ & [(_ & Hn & _ & ->)|(_ & Hq & -> & _)]).
      * right; left. by destruct ev.
      * do 3 right. by exists p, pending, next, h.
  - destruct (step_unmounted _ _ _ _ Hp Hs)
      as [(params & -> & -> & ->)|(e & -> & [(_ & -> & ->)|(Hn & -> & ->)])].
    + left. cbn. auto.
    + left. auto.
    + do 2 right; left. by exists e.
Qed.

Lemma commit_fields p :
  getExperimentURLs (commit p) = getExperimentURLs p ∧
  experimentURLValue (commit p) = experimentURLValue p ∧
  serverAvailable (commit p) = serverAvailable p ∧ url (commit p) = url p ∧
  ∀ s, inputUrl (commit p) = Some s → s = default "" (inputUrl p).
Proof.
  unfold commit. repeat split. cbn. intros s.
  destruct (form_rendered p); intros; by simplify_eq.
Qed.

Lemma step_executes a ev a' effs :
  step a ev = Some (a', effs) →
  executes effs = [] ∨ is_mount ev = true ∧ executes effs = [operator_uri].
Proof.
  intros [(_ & -> & _)|[(_ & He & _)|[(e & -> & _ & _ & ->)|
    (p & pending & next & h & _ & Hh & _ & ->)]]]%step_inv; auto.
  left. apply handle_shape in Hh as (He & _).
  unfold executes in *. rewrite omap_app, He. apply executes_probe_effect.
Qed.

(** X5.  The remote operation is triggered by mounting the panel and by
    nothing else: along any run, every call the panel makes is a call of
    [get_mlflow_experiment_urls], and there are at most as many calls as
    mounts; a run without a mount makes no call, however the handle, the
    probes, the selection or the form change. *)
Theorem remote_call_only_on_mount a (evs : list Event) a' log :
  run a evs = Some (a', log) →
  Forall (λ uri, uri = operator_uri) (executes log) ∧
  (length (executes log) ≤ length (List.filter is_mount evs))%nat.
Proof.
  revert a log. induction evs as [|ev evs IH]; intros a log H.
  - simplify_eq/=. split; [constructor|done].
  - cbn [run] in H. destruct (step a ev) as [[a1 effs]|] eqn:Hs; [|done].
    cbn [mbind option_bind] in H.
    destruct (run a1 evs) as [[a2 effs']|] eqn:Hr; simplify_eq/=.
    destruct (IH _ _ Hr) as [Hall Hlen].
    unfold executes in *. rewrite omap_app, length_app. fold (executes effs).
    destruct (step_executes _ _ _ _ Hs) as [->|[-> ->]]; cbn.
    + split; [done|]. destruct (is_mount ev); cbn; lia.
    + split; [by constructor|lia].
Qed.

Lemma remote_call_only_on_mount_witness :
  Forall (λ uri, uri = operator_uri)
    (executes [Fetch defaultUrl; Execute operator_uri; PreventDefault;
               Fetch "http://localhost:8080"]) ∧
  (length (executes [Fetch defaultUrl; Execute operator_uri; PreventDefault;
                     Fetch "http://localhost:8080"]) ≤
   length (List.filter is_mount
     [Mount (mkExecutor false Js.Null);
      ExecutorUpdate (mkExecutor false (Js.Obj [("urls", Js.Arr [])]));
      ProbeSettled defaultUrl false; FormInput "http://localhost:8080";
      FormSubmit]))%nat.
Proof.
  apply (remote_call_only_on_mount init
    [Mount (mkExecutor false Js.Null);
     ExecutorUpdate (mkExecutor false (Js.Obj [("urls", Js.Arr [])]));
     ProbeSettled defaultUrl false; FormInput "http://localhost:8080"; FormSubmit]
    (mkApp State.iframeURLAtom_default
       (Some (mkPanel (mkExecutor false (Js.Obj [("urls", Js.Arr [])]))
                      (Js.Str "") false "http://localhost:8080"
                      (Some "http://localhost:8080")))
       ["http://localhost:8080"])
    [Fetch defaultUrl; Execute operator_uri; PreventDefault;
     Fetch "http://localhost:8080"]).
  reflexivity.
Defined.

Lemma run_atom_frame (evs : list Event) a a' log :
  run a evs = Some (a', log) → existsb is_set_iframe_url evs = false →
  iframeURLAtom a' = iframeURLAtom a.
Proof.
  revert a log. induction evs as [|ev evs IH]; intros a log H Hn.
  - by simplify_eq/=.
  - cbn [run] in H. destruct (step a ev) as [[a1 effs]|] eqn:Hs; [|done].
    cbn [mbind option_bind] in H.
    destruct (run a1 evs) as [[a2 effs']|] eqn:Hr; simplify_eq/=.
    apply orb_false_iff in Hn as [Hev Hn].
    rewrite (IH _ _ Hr Hn), (step_atom _ _ _ _ Hs). by destruct ev.
Qed.

(** X6.  The shared cell holds the [url] of the most recent [set_iframe_url]
    whose parameter object has one, whatever happened before it and whatever
    happens after it short of another [set_iframe_url]: the value survives
    mounting and unmounting the panel, probes, selections and form
    submissions. *)
Theorem last_set_iframe_url_wins a (evs1 evs2 : list Event)
    (fields : list (string * Js.Value)) (v : Js.Value) a' log :
  run a (evs1 ++ SetIframeURL (Js.Obj fields) :: evs2) = Some (a', log) →
  Js.lookup_field "url" fields = Some v →
  existsb is_set_iframe_url evs2 = false →
  iframeURLAtom a' = v.
Proof.
  intros (a1 & log1 & log2 & _ & H2 & _)%run_app Hv Hn.
  cbn [run] in H2.
  destruct (step a1 (SetIframeURL (Js.Obj fields))) as [[a2 effs]|] eqn:Hs; [|done].
  cbn [mbind option_bind] in H2.
  destruct (run a2 evs2) as [[a3 effs']|] eqn:Hr; simplify_eq/=.
  rewrite (run_atom_frame _ _ _ _ Hr Hn). cbn.
  unfold Operator.execute, Js.get. cbn. by rewrite Hv.
Qed.

Lemma last_set_iframe_url_wins_witness :
  iframeURLAtom (mkApp (Js.Str "http://x/2") None []) = Js.Str "http://x/2".
Proof.
  apply (last_set_iframe_url_wins init
    [SetIframeURL (Js.Obj [("url", Js.Str "http://x/1")]);
     Mount (mkExecutor false Js.Null)]
    [ProbeSettled defaultUrl true; Unmount]
    [("url", Js.Str "http://x/2")] (Js.Str "http://x/2")
    (mkApp (Js.Str "http://x/2") None [])
    [Fetch defaultUrl; Execute operator_uri]); reflexivity.
Defined.

(** X7.  [set_iframe_url] with a parameter value that is neither [undefined]
    nor [null] but has no [url] (an object without the key, or a primitive or
    an array) overwrites the shared cell with [undefined]; with parameters
    that are [undefined] or [null] the read of [params.url] throws before the
    setter is called and the application is left exactly as it was. *)
Theorem set_iframe_url_without_url a (params : Js.Value) :
  (Js.nullish params = true → step a (SetIframeURL params) = Some (a, [])) ∧
  (Js.nullish params = false →
   (∀ fields, params = Js.Obj fields → Js.lookup_field "url" fields = None) →
   step a (SetIframeURL params) =
   Some (mkApp Js.Undefined (panel a) (inflight a), [])).
Proof.
  unfold step, Operator.execute, Js.get. split.
  - intros ->. by destruct a as [? [?|] ?].
  - intros -> Hf. cbn.
    assert (Js.prop params "url" = Js.Undefined) as ->; [|by destruct (panel a)].
    destruct params; try done. cbn. by rewrite (Hf fields eq_refl).
Qed.

Lemma set_iframe_url_without_url_witness :
  step (mkApp (Js.Str "http://x/1") None []) (SetIframeURL (Js.Obj [])) =
  Some (mkApp Js.Undefined None [], []).
Proof.
  refine (proj2 (set_iframe_url_without_url
    (mkApp (Js.Str "http://x/1") None []) (Js.Obj [])) eq_refl _).
  intros fields [= <-]. reflexivity.
Defined.

Lemma logged_app effs effs' : logged (effs ++ effs') = logged effs ++ logged effs'.
Proof. apply omap_app. Qed.

Lemma step_chosen a ev a' effs log :
  step a ev = Some (a', effs) → chosen a log → chosen a' (log ++ effs).
Proof.
  intros [(Hp & -> & _)|[(Hp & _)|[(e & -> & _ & Hp & _)|
    (p & pending & next & h & Hp & Hh & Hp' & ->)]]]%step_inv Hc q Hq.
  - rewrite app_nil_r. apply Hc. congruence.
  - congruence.
  - rewrite Hp in Hq. simplify_eq. by left.
  - rewrite Hp' in Hq. simplify_eq.
    destruct (commit_fields next) as (_ & -> & _).
    rewrite !logged_app, (proj2 (executes_probe_effect _ _)), app_nil_r.
    apply handle_shape in Hh as (_ & [[Hv Hl]|Hl] & _); rewrite Hl.
    + rewrite app_nil_r, Hv. by apply Hc.
    + right. apply elem_of_app. right. by apply list_elem_of_singleton.
Qed.

Lemma run_chosen (evs : list Event) a a' log log' :
  run a evs = Some (a', log') → chosen a log → chosen a' (log ++ log').
Proof.
  revert a log log'. induction evs as [|ev evs IH]; intros a log log' H Hc.
  - simplify_eq/=. by rewrite app_nil_r.
  - cbn [run] in H. destruct (step a ev) as [[a1 effs]|] eqn:Hs; [|done].
    cbn [mbind option_bind] in H.
    destruct (run a1 evs) as [[a2 effs']|] eqn:Hr; simplify_eq/=.
    rewrite app_assoc. eapply IH; eauto using step_chosen.
Qed.

(** X8.  Along any run from the initial application, the iframe of the
    mounted panel shows the hardcoded default or a value the user picked in
    the selector (each pick is logged by [handleExperimentURLChange]), and
    nothing else: never the URL typed into the override form, never the value
    of the shared cell. *)
Theorem iframe_shows_default_or_choice (evs : list Event) a log p (src : Js.Value) :
  run init evs = Some (a, log) → panel a = Some p → src ∈ iframe_src p →
  src = Js.Str defaultUrl ∨ src ∈ logged log.
Proof.
  intros Hrun Hp Hsrc.
  assert (chosen init []) as Hi by (by intros q Hq).
  pose proof (run_chosen _ _ _ [] _ Hrun Hi p Hp) as Hc. cbn in Hc.
  rewrite iframe_src_total in Hsrc.
  destruct (MLFlowPanel p); [|by apply elem_of_nil in Hsrc].
  destruct (loading p); [by apply elem_of_nil in Hsrc|].
  apply list_elem_of_singleton in Hsrc as ->. unfold Js.or.
  destruct (Js.truthy (experimentURLValue p)) eqn:Ht; [|by left].
  destruct Hc as [Hc|Hc]; [by rewrite Hc in Ht|by right].
Qed.

Lemma iframe_shows_default_or_choice_witness :
  Js.Str "http://x/2" = Js.Str defaultUrl ∨
  Js.Str "http://x/2" ∈ logged [Fetch defaultUrl; Execute operator_uri;
                                 ConsoleLog (Js.Str "http://x/2")].
Proof.
  apply (iframe_shows_default_or_choice
    [Mount (mkExecutor false
       (Js.Obj [("urls",
          Js.Arr [Js.Obj [("name", Js.Str "exp-1"); ("url", Js.Str "http://x/1")];
                  Js.Obj [("name", Js.Str "exp-2"); ("url", Js.Str "http://x/2")]])]));
     SelectChange 1]
    (mkApp State.iframeURLAtom_default
       (Some (mkPanel (mkExecutor false
          (Js.Obj [("urls",
             Js.Arr [Js.Obj [("name", Js.Str "exp-1"); ("url", Js.Str "http://x/1")];
                     Js.Obj [("name", Js.Str "exp-2"); ("url", Js.Str "http://x/2")]])]))
          (Js.Str "http://x/2") true defaultUrl None))
       [defaultUrl])
    [Fetch defaultUrl; Execute operator_uri; ConsoleLog (Js.Str "http://x/2")]
    (mkPanel (mkExecutor false
          (Js.Obj [("urls",
             Js.Arr [Js.Obj [("name", Js.Str "exp-1"); ("url", Js.Str "http://x/1")];
                     Js.Obj [("name", Js.Str "exp-2"); ("url", Js.Str "http://x/2")]])]))
          (Js.Str "http://x/2") true defaultUrl None)
    (Js.Str "http://x/2")).
  - vm_compute. reflexivity.
  - reflexivity.
  - vm_compute. left.
Defined.

Lemma sourced_mono (T T' : list string) a :
  (∀ u, u ∈ T → u ∈ T') → sourced T a → sourced T' a.
Proof.
  intros Hsub Hs p Hp. destruct (Hs p Hp) as [Hu Hi]. split.
  - destruct Hu as [?|[?|?]]; auto.
  - intros s Hs'. destruct (Hi s Hs'); auto.
Qed.

Lemma typed_cons ev (evs : list Event) : typed (ev :: evs) = typed [ev] ++ typed evs.
Proof. unfold typed. by rewrite <- omap_app. Qed.

Lemma step_sourced (T : list string) a ev a' effs :
  step a ev = Some (a', effs) → sourced T a →
  sourced (T ++ typed [ev]) a' ∧
  ∀ u, u ∈ fetches effs → u = defaultUrl ∨ u = "" ∨ u ∈ T ++ typed [ev].
Proof.
  intros [(Hp & -> & _)|[(Hp & _ & Hf & _)|[(e & -> & _ & Hp & ->)|
    (p & pending & next & h & Hp & Hh & Hp' & ->)]]]%step_inv Hs.
  - split; [|by intros u ?%elem_of_nil].
    apply (sourced_mono T); [intros u ?; apply elem_of_app; by left|].
    intros q Hq. apply Hs. congruence.
  - rewrite Hf. split; [intros q; congruence|by intros u ?%elem_of_nil].
  - split.
    + intros q Hq. rewrite Hp in Hq. simplify_eq.
      destruct (commit_fields (initial e)) as (_ & _ & _ & -> & Hi).
      split; [by left|]. intros s ->%Hi. by left.
    + intros u ->%list_elem_of_singleton. by left.
  - destruct (Hs p Hp) as [Hu Hi].
    pose proof (handle_fields _ _ _ _ _ _ Hh) as (Hf & _).
    apply handle_shape in Hh as (_ & _ & Hurl & Hin).
    assert (url next = defaultUrl ∨ url next = "" ∨ url next ∈ T ++ typed [ev])
      as Hnext.
    { destruct Hurl as [->|[-> ->]].
      - destruct Hu as [?|[?|?]]; auto. do 2 right. apply elem_of_app. by left.
      - destruct (inputUrl p) as [s|]; cbn; [|by auto].
        destruct (Hi s eq_refl); auto. do 2 right. apply elem_of_app. by left. }
    split.
    + intros q Hq. rewrite Hp' in Hq. simplify_eq.
      destruct (commit_fields next) as (_ & _ & _ & -> & Hc).
      split; [done|]. intros s ->%Hc.
      destruct Hin as [->|(s & -> & ->)].
      * destruct (inputUrl p) as [s|]; cbn; [|by auto].
        destruct (Hi s eq_refl); auto. right. apply elem_of_app. by left.
      * right. apply elem_of_app. right. by apply list_elem_of_singleton.
    + intros u Hu'. unfold fetches in Hu'. rewrite omap_app in Hu'.
      fold (fetches h) in Hu'. rewrite Hf, app_nil_l in Hu'.
      fold (fetches (probe_effect (Some (url p)) (url next))) in Hu'.
      rewrite fetches_probe_effect in Hu'. case_decide; [by apply elem_of_nil in Hu'|].
      by apply list_elem_of_singleton in Hu' as ->.
Qed.

Lemma run_sourced (evs : list Event) (T : list string) a a' log :
  run a evs = Some (a', log) → sourced T a →
  sourced (T ++ typed evs) a' ∧
  ∀ u, u ∈ fetches log → u = defaultUrl ∨ u = "" ∨ u ∈ T ++ typed evs.
Proof.
  revert T a log. induction evs as [|ev evs IH]; intros T a log H Hs.
  - simplify_eq/=. rewrite app_nil_r. split; [done|by intros u ?%elem_of_nil].
  - cbn [run] in H. destruct (step a ev) as [[a1 effs]|] eqn:Hst; [|done].
    cbn [mbind option_bind] in H.
    destruct (run a1 evs) as [[a2 effs']|] eqn:Hr; [|done].
    cbn in H. injection H as <- <-.
    destruct (step_sourced T _ _ _ _ Hst Hs) as [Hs1 Hf1].
    destruct (IH _ _ _ Hr Hs1) as [Hs2 Hf2].
    rewrite typed_cons, app_assoc. split; [done|].
    intros u Hu. unfold fetches in Hu. rewrite omap_app in Hu.
    apply elem_of_app in Hu as [Hu|Hu]; [|by apply Hf2].
    destruct (Hf1 u Hu) as [?|[?|?]]; auto.
    do 2 right. apply elem_of_app. by left.
Qed.

(** X9.  Along any run from the initial application, every URL the prober
    fetches is the hardcoded default, the empty string (a form submitted
    before anything was typed) or a string that was typed into the override
    form: the prober never fetches a selected experiment URL or the value of
    the shared cell. *)
Theorem probes_come_from_default_or_form (evs : list Event) a log (u : string) :
  run init evs = Some (a, log) → u ∈ fetches log →
  u = defaultUrl ∨ u = "" ∨ u ∈ typed evs.
Proof.
  intros Hrun Hu.
  assert (sourced [] init) as Hi by (by intros q Hq).
  destruct (run_sourced _ [] _ _ _ Hrun Hi) as [_ Hf]. by apply Hf.
Qed.

Lemma probes_come_from_default_or_form_witness :
  "http://localhost:8080" = defaultUrl ∨ "http://localhost:8080" = "" ∨
  "http://localhost:8080" ∈ typed
    [Mount (mkExecutor false Js.Null);
     ExecutorUpdate (mkExecutor false (Js.Obj [("urls", Js.Arr [])]));
     ProbeSettled defaultUrl false; FormInput "http://localhost:8080"; FormSubmit].
Proof.
  apply (probes_come_from_default_or_form
    [Mount (mkExecutor false Js.Null);
     ExecutorUpdate (mkExecutor false (Js.Obj [("urls", Js.Arr [])]));
     ProbeSettled defaultUrl false; FormInput "http://localhost:8080"; FormSubmit]
    (mkApp State.iframeURLAtom_default
       (Some (mkPanel (mkExecutor false (Js.Obj [("urls", Js.Arr [])]))
                      (Js.Str "") false "http://localhost:8080"
                      (Some "http://localhost:8080")))
       ["http://localhost:8080"])
    [Fetch defaultUrl; Execute operator_uri; PreventDefault;
     Fetch "http://localhost:8080"]).
  - reflexivity.
  - vm_compute. right. left.
Defined.

Lemma run_cat (evs1 evs2 : list Event) a a1 a2 log1 log2 :
  run a evs1 = Some (a1, log1) → run a1 evs2 = Some (a2, log2) →
  run a (evs1 ++ evs2) = Some (a2, log1 ++ log2).
Proof.
  revert a log1. induction evs1 as [|ev evs1 IH]; intros a log1 H1 H2.
  - by simplify_eq/=.
  - rewrite <- app_comm_cons. cbn [run] in H1 |- *.
    destruct (step a ev) as [[a0 effs]|]; [|done]. cbn [mbind option_bind] in H1 |- *.
    destruct (run a0 evs1) as [[a3 effs']|] eqn:Hr; [|done].
    cbn in H1. injection H1 as -> <-.
    rewrite (IH _ _ Hr H2). cbn. by rewrite app_assoc.
Qed.

Lemma commit_idem p : commit (commit p) = commit p.
Proof.
  unfold commit at 1. rewrite form_rendered_commit. unfold commit.
  destruct (form_rendered p); by destruct p.
Qed.

Lemma step_committed a ev a' effs :
  step a ev = Some (a', effs) → committed a → committed a'.
Proof.
  intros [(Hp & _)|[(Hp & _)|[(e & -> & _ & Hp & _)|
    (p & pending & next & h & _ & _ & Hp & _)]]]%step_inv Hc q Hq.
  - apply Hc. congruence.
  - congruence.
  - rewrite Hp in Hq. simplify_eq. apply commit_idem.
  - rewrite Hp in Hq. simplify_eq. apply commit_idem.
Qed.

Lemma reachable_committed a : reachable a → committed a.
Proof.
  intros (evs & log & H). assert (committed init) as Hi by (by intros q Hq).
  revert H Hi. generalize init. revert log.
  induction evs as [|ev evs IH]; intros log a0 H Hi.
  - by simplify_eq/=.
  - cbn [run] in H. destruct (step a0 ev) as [[a1 effs]|] eqn:Hs; [|done].
    cbn [mbind option_bind] in H.
    destruct (run a1 evs) as [[a2 effs']|] eqn:Hr; simplify_eq/=.
    eapply IH; eauto using step_committed.
Qed.

(** The text field shows the text the form holds. *)
Lemma textfield_value p (s : string) :
  form_rendered p = true → inputUrl p = Some s →
  attr "value" <$> rendered TextField p = [Js.Str s].
Proof.
  intros (Hs & Hl & Ha)%form_rendered_spec Hi. destruct Hs as [tree Ht].
  destruct (render_loaded _ _ Hl Ht) as (items & sel & _ & Hsl & ->).
  unfold rendered. rewrite Ht. cbn [from_option].
  rewrite elements_page, (elements_slot _ _ _ _ Hsl) by done.
  rewrite Ha, Hi. by case_bool_decide.
Qed.

(** X10.  A form that comes into view starts empty, whatever was typed into
    an earlier form: in a reachable state that does not show the form, any
    event after which the form is shown leaves its text field empty; and
    submitting that form as it is makes the empty string the probe target,
    which the prober fetches unless the target was empty already. *)
Theorem form_appears_empty a ev a1 effs p1 :
  reachable a → (∀ p, panel a = Some p → form_rendered p = false) →
  step a ev = Some (a1, effs) → panel a1 = Some p1 → form_rendered p1 = true →
  inputUrl p1 = Some "" ∧
  attr "value" <$> rendered TextField p1 = [Js.Str ""] ∧
  ∃ a2 log2 p2,
    step a1 FormSubmit = Some (a2, log2) ∧ panel a2 = Some p2 ∧ url p2 = "" ∧
    fetches log2 = (if decide (url p1 = "") then [] else [""]).
Proof.
  intros Hr%reachable_committed Hhid Hs Hp1 Hf1.
  assert (inputUrl p1 = Some "") as Hi.
  { destruct (step_inv _ _ _ _ Hs) as [(Hp & _)|[(Hp & _)|[(e & -> & _ & Hp & _)|
      (p & pending & next & h & Hp & Hh & Hp' & _)]]].
    - rewrite Hp in Hp1. rewrite (Hhid _ Hp1) in Hf1. done.
    - congruence.
    - rewrite Hp in Hp1. simplify_eq.
      rewrite form_rendered_commit, form_rendered_false in Hf1; [done|by right].
    - rewrite Hp' in Hp1. simplify_eq. rewrite form_rendered_commit in Hf1.
      assert (inputUrl p = None) as Hnone.
      { rewrite <- (Hr p Hp). unfold commit. by rewrite (Hhid p Hp). }
      assert (inputUrl next = None) as Hn.
      { pose proof (handle_shape _ _ _ _ _ _ Hh) as (_ & _ & _ & [->|(s & -> & _)]);
          [done|]. unfold handle in Hh. by rewrite (Hhid p Hp) in Hh. }
      unfold commit. by rewrite Hf1, Hn. }
  split; [done|]. split; [by apply textfield_value|].
  eexists _, _, _. split; [by apply (step_form_submit a1 p1 "")|].
  split; [done|]. split; [done|].
  change (fetches (PreventDefault :: ?l)) with (fetches l).
  apply fetches_probe_effect.
Qed.

Lemma form_appears_empty_witness :
  inputUrl (mkPanel (mkExecutor false (Js.Obj [("urls", Js.Arr [])]))
                    (Js.Str "") false "http://localhost:9090" (Some "")) = Some "".
Proof.
  refine (proj1 (form_appears_empty
    (mkApp State.iframeURLAtom_default
       (Some (mkPanel (mkExecutor false (Js.Obj [("urls", Js.Arr [])]))
                      (Js.Str "") true "http://localhost:9090" None))
       ["http://localhost:8080"])
    (ProbeSettled "http://localhost:8080" false)
    (mkApp State.iframeURLAtom_default
       (Some (mkPanel (mkExecutor false (Js.Obj [("urls", Js.Arr [])]))
                      (Js.Str "") false "http://localhost:9090" (Some "")))
       [])
    []
    (mkPanel (mkExecutor false (Js.Obj [("urls", Js.Arr [])]))
             (Js.Str "") false "http://localhost:9090" (Some ""))
    _ _ _ eq_refl _)).
  - exists [Mount (mkExecutor false Js.Null);
            ExecutorUpdate (mkExecutor false (Js.Obj [("urls", Js.Arr [])]));
            ProbeSettled defaultUrl false;
            FormInput "http://localhost:8080"; FormSubmit;
            FormInput "http://localhost:9090"; FormSubmit;
            ProbeSettled "http://localhost:9090" true].
    eexists. vm_compute. reflexivity.
  - intros p [= <-]. vm_compute. reflexivity.
  - vm_compute. reflexivity.
  - vm_compute. reflexivity.
Defined.

(** X11.  Typing into the override form is local to the form: the text field
    shows the typed text, and nothing else changes - the probe target, the
    availability flag, the selection and the shared cell stay as they are, no
    probe is issued and no effect is performed. *)
Theorem typing_is_local a p (s : string) :
  panel a = Some p → form_rendered p = true →
  ∃ p',
    step a (FormInput s) =
      Some (mkApp (iframeURLAtom a) (Some p') (inflight a), []) ∧
    url p' = url p ∧ serverAvailable p' = serverAvailable p ∧
    experimentURLValue p' = experimentURLValue p ∧
    getExperimentURLs p' = getExperimentURLs p ∧
    form_rendered p' = true ∧
    attr "value" <$> rendered TextField p' = [Js.Str s].
Proof.
  intros Hp Hf. exists (setInputUrl (Some s) p).
  split; [by apply step_form_input|]. do 4 (split; [done|]).
  assert (form_rendered (setInputUrl (Some s) p) = true) as Hf'
    by by rewrite (form_rendered_same_flags _ p).
  split; [done|]. by apply textfield_value.
Qed.

Lemma typing_is_local_witness :
  ∃ p',
    step (mkApp State.iframeURLAtom_default
            (Some (mkPanel (mkExecutor false (Js.Obj [("urls", Js.Arr [])]))
                           (Js.Str "") false defaultUrl (Some ""))) [])
         (FormInput "http://localhost:8080") =
      Some (mkApp State.iframeURLAtom_default (Some p') [], []) ∧
    url p' = defaultUrl ∧ serverAvailable p' = false ∧
    experimentURLValue p' = Js.Str "" ∧
    getExperimentURLs p' = mkExecutor false (Js.Obj [("urls", Js.Arr [])]) ∧
    form_rendered p' = true ∧
    attr "value" <$> rendered TextField p' = [Js.Str "http://localhost:8080"].
Proof.
  apply (typing_is_local
    (mkApp State.iframeURLAtom_default
       (Some (mkPanel (mkExecutor false (Js.Obj [("urls", Js.Arr [])]))
                      (Js.Str "") false defaultUrl (Some ""))) [])
    (mkPanel (mkExecutor false (Js.Obj [("urls", Js.Arr [])]))
             (Js.Str "") false defaultUrl (Some ""))
    "http://localhost:8080"); reflexivity.
Defined.

Lemma run_inputs a p (ss : list string) :
  panel a = Some p → form_rendered p = true →
  run a (FormInput <$> ss) =
  Some (mkApp (iframeURLAtom a)
              (Some (setInputUrl (from_option Some (inputUrl p) (last ss)) p))
              (inflight a), []).
Proof.
  revert a p. induction ss as [|s ss IH]; intros a p Hp Hf.
  - cbn. destruct a, p; by simplify_eq/=.
  - rewrite fmap_cons. cbn [run]. rewrite (step_form_input a p s Hp Hf).
    cbn [mbind option_bind].
    rewrite (IH (mkApp (iframeURLAtom a) (Some (setInputUrl (Some s) p)) (inflight a))
                (setInputUrl (Some s) p) eq_refl);
      [|by rewrite (form_rendered_same_flags _ p)].
    cbn. do 3 f_equal. rewrite last_cons. by destruct (last ss).
Qed.

(** X12.  Of the texts typed into the form only the last one counts: typing
    any non-empty sequence of texts and then submitting makes the last text
    the probe target, and the prober fetches that text (when it differs from
    the previous target) and none of the texts typed before it. *)
Theorem last_typed_wins a p (ss : list string) (s : string) :
  panel a = Some p → form_rendered p = true → last ss = Some s →
  ∃ a' log' p',
    run a ((FormInput <$> ss) ++ [FormSubmit]) = Some (a', log') ∧
    panel a' = Some p' ∧ url p' = s ∧
    fetches log' = (if decide (url p = s) then [] else [s]).
Proof.
  intros Hp Hf Hl. eexists _, _, _. split.
  - eapply run_cat; [by apply run_inputs|]. rewrite Hl. cbn [from_option run].
    rewrite (step_form_submit _ (setInputUrl (Some s) p) s);
      [|done|by rewrite (form_rendered_same_flags _ p)|done].
    cbn. reflexivity.
  - split; [done|]. split; [done|]. cbn. rewrite app_nil_r.
    apply fetches_probe_effect.
Qed.

Lemma last_typed_wins_witness :
  ∃ a' log' p',
    run (mkApp State.iframeURLAtom_default
           (Some (mkPanel (mkExecutor false (Js.Obj [("urls", Js.Arr [])]))
                          (Js.Str "") false defaultUrl (Some ""))) [])
        ((FormInput <$> ["h"; "http://local"; "http://localhost:8080"])
         ++ [FormSubmit]) = Some (a', log') ∧
    panel a' = Some p' ∧ url p' = "http://localhost:8080" ∧
    fetches log' = ["http://localhost:8080"].
Proof.
  apply (last_typed_wins
    (mkApp State.iframeURLAtom_default
       (Some (mkPanel (mkExecutor false (Js.Obj [("urls", Js.Arr [])]))
                      (Js.Str "") false defaultUrl (Some ""))) [])
    (mkPanel (mkExecutor false (Js.Obj [("urls", Js.Arr [])]))
             (Js.Str "") false defaultUrl (Some ""))
    ["h"; "http://local"; "http://localhost:8080"] "http://localhost:8080");
    reflexivity.
Defined.

(** X13.  Closing and reopening the panel forgets what the panel held: the
    reopened panel has no selection, the hardcoded default as probe target
    and [serverAvailable] true again, it probes the default URL and calls the
    remote operation anew, and the outcomes of the probes of the closed panel
    no longer reach it; the shared cell keeps its value. *)
Theorem reopen_resets a p (e : Executor) :
  panel a = Some p → is_Some (MLFlowPanel (initial e)) →
  run a [Unmount; Mount e] =
  Some (mkApp (iframeURLAtom a)
              (Some (mkPanel e (Js.Str "") true defaultUrl None)) [defaultUrl],
        [Fetch defaultUrl; Execute operator_uri]).
Proof.
  intros Hp [tree Ht].
  assert (step a Unmount = Some (mkApp (iframeURLAtom a) None [], [])) as H1.
  { unfold step. by rewrite Hp. }
  assert (step (mkApp (iframeURLAtom a) None []) (Mount e) =
          Some (mkApp (iframeURLAtom a) (Some (initial e)) [defaultUrl],
                [Fetch defaultUrl; Execute operator_uri])) as H2.
  { unfold step. cbn. rewrite Ht. do 3 f_equal. unfold commit.
    rewrite form_rendered_false; [done|by right]. }
  cbn [run]. rewrite H1. cbn [mbind option_bind]. rewrite H2. reflexivity.
Qed.

Lemma reopen_resets_witness :
  run (mkApp (Js.Str "http://x/9")
         (Some (mkPanel (mkExecutor false (Js.Obj [("urls", Js.Arr [])]))
                        (Js.Str "http://x/2") false "http://localhost:8080"
                        (Some "typed"))) ["http://localhost:8080"])
      [Unmount; Mount (mkExecutor false Js.Null)] =
  Some (mkApp (Js.Str "http://x/9")
              (Some (mkPanel (mkExecutor false Js.Null) (Js.Str "") true
                             defaultUrl None)) [defaultUrl],
        [Fetch defaultUrl; Execute operator_uri]).
Proof.
  apply (reopen_resets
    (mkApp (Js.Str "http://x/9")
       (Some (mkPanel (mkExecutor false (Js.Obj [("urls", Js.Arr [])]))
                      (Js.Str "http://x/2") false "http://localhost:8080"
                      (Some "typed"))) ["http://localhost:8080"])
    (mkPanel (mkExecutor false (Js.Obj [("urls", Js.Arr [])]))
             (Js.Str "http://x/2") false "http://localhost:8080" (Some "typed"))
    (mkExecutor false Js.Null)); [reflexivity|].
  vm_compute. eauto.
Defined.

(** X14.  The outcome of a probe is applied without regard to the URL it was
    for: for any two distinct override URLs [S1] (not the default) and [S2]
    there is a run in which [S2] is the current target and its probe has
    resolved, and the probe of the abandoned target [S1] then rejects; at the
    end [serverAvailable] is false and the form is shown again, although the
    last probe of the current target succeeded. *)
Theorem stale_rejection_reopens_form (S1 S2 : string) :
  S1 ≠ defaultUrl → S2 ≠ S1 →
  ∃ a log p,
    run init [Mount (mkExecutor false Js.Null);
              ExecutorUpdate (mkExecutor false (Js.Obj [("urls", Js.Arr [])]));
              ProbeSettled defaultUrl false;
              FormInput S1; FormSubmit; FormInput S2; FormSubmit;
              ProbeSettled S2 true; ProbeSettled S1 false] = Some (a, log) ∧
    panel a = Some p ∧ url p = S2 ∧ serverAvailable p = false ∧
    form_rendered p = true ∧ fetches log = [defaultUrl; S1; S2].
Proof.
  intros H1 H2.
  set (e := mkExecutor false (Js.Obj [("urls", Js.Arr [])])).
  set (cell := State.iframeURLAtom_default).
  assert (run init [Mount (mkExecutor false Js.Null); ExecutorUpdate e;
                    ProbeSettled defaultUrl false] =
          Some (mkApp cell (Some (mkPanel e (Js.Str "") false defaultUrl (Some ""))) [],
                [Fetch defaultUrl; Execute operator_uri])) as R1 by reflexivity.
  pose proof (type_and_submit
    (mkApp cell (Some (mkPanel e (Js.Str "") false defaultUrl (Some ""))) [])
    _ S1 eq_refl eq_refl) as R2.
  cbn [url inflight iframeURLAtom getExperimentURLs experimentURLValue
       serverAvailable app] in R2.
  unfold probe_effect in R2.
  rewrite (decide_False (P:=defaultUrl = S1)) in R2 by done.
  rewrite (decide_False (P:=Some defaultUrl = Some S1)) in R2 by congruence.
  pose proof (type_and_submit
    (mkApp cell (Some (mkPanel e (Js.Str "") false S1 (Some S1))) [S1])
    _ S2 eq_refl eq_refl) as R3.
  cbn [url inflight iframeURLAtom getExperimentURLs experimentURLValue
       serverAvailable app] in R3.
  unfold probe_effect in R3.
  rewrite (decide_False (P:=S1 = S2)) in R3 by done.
  rewrite (decide_False (P:=Some S1 = Some S2)) in R3 by congruence.
  assert (step (mkApp cell (Some (mkPanel e (Js.Str "") false S2 (Some S2))) [S1; S2])
               (ProbeSettled S2 true) =
          Some (mkApp cell (Some (mkPanel e (Js.Str "") true S2 None)) [S1], [])) as R4.
  { rewrite (step_probe_settled
               (mkApp cell (Some (mkPanel e (Js.Str "") false S2 (Some S2))) [S1; S2])
               (mkPanel e (Js.Str "") false S2 (Some S2)) S2 true eq_refl);
      [|by eexists|apply elem_of_cons; right; apply list_elem_of_here].
    cbn [remove_first inflight]. rewrite decide_False, decide_True by done.
    reflexivity. }
  assert (step (mkApp cell (Some (mkPanel e (Js.Str "") true S2 None)) [S1])
               (ProbeSettled S1 false) =
          Some (mkApp cell (Some (mkPanel e (Js.Str "") false S2 (Some ""))) [], [])) as R5.
  { rewrite (step_probe_settled
               (mkApp cell (Some (mkPanel e (Js.Str "") true S2 None)) [S1])
               (mkPanel e (Js.Str "") true S2 None) S1 false eq_refl);
      [|by eexists|apply list_elem_of_here].
    cbn [remove_first inflight]. rewrite decide_True by done.
    reflexivity. }
  assert (run (mkApp cell (Some (mkPanel e (Js.Str "") false S2 (Some S2))) [S1; S2])
              [ProbeSettled S2 true; ProbeSettled S1 false] =
          Some (mkApp cell (Some (mkPanel e (Js.Str "") false S2 (Some ""))) [], []))
    as R6.
  { cbn [run]. rewrite R4. cbn [mbind option_bind]. rewrite R5. reflexivity. }
  eexists _, _, _. split.
  - change ([Mount (mkExecutor false Js.Null); ExecutorUpdate e;
             ProbeSettled defaultUrl false; FormInput S1; FormSubmit;
             FormInput S2; FormSubmit; ProbeSettled S2 true; ProbeSettled S1 false])
      with ([Mount (mkExecutor false Js.Null); ExecutorUpdate e;
             ProbeSettled defaultUrl false] ++
            [FormInput S1; FormSubmit] ++ [FormInput S2; FormSubmit] ++
            [ProbeSettled S2 true; ProbeSettled S1 false]).
    eapply run_cat; [exact R1|]. eapply run_cat; [exact R2|].
    eapply run_cat; [exact R3|]. exact R6.
  - repeat split.
Qed.

Lemma stale_rejection_reopens_form_witness :
  ∃ a log p,
    run init [Mount (mkExecutor false Js.Null);
              ExecutorUpdate (mkExecutor false (Js.Obj [("urls", Js.Arr [])]));
              ProbeSettled defaultUrl false;
              FormInput "http://localhost:8080"; FormSubmit;
              FormInput "http://localhost:9090"; FormSubmit;
              ProbeSettled "http://localhost:9090" true;
              ProbeSettled "http://localhost:8080" false] = Some (a, log) ∧
    panel a = Some p ∧ url p = "http://localhost:9090" ∧
    serverAvailable p = false ∧ form_rendered p = true ∧
    fetches log = [defaultUrl; "http://localhost:8080"; "http://localhost:9090"].
Proof.
  apply (stale_rejection_reopens_form "http://localhost:8080" "http://localhost:9090");
    discriminate.
Defined.





End Further.
